(** * ts-simplify-types: the record classifier of src/simplify.ts and src/index.ts

    A shallow embedding of the two classification passes ([simplifyType] of
    src/simplify.ts, [processType] of src/index.ts) and of the line-mode
    transform of [processFile], over a small model of the JavaScript values
    the program handles: JSON values, objects with ordered own properties,
    and the TypeError that a method call on the wrong kind of value raises. *)

From Stdlib Require Import List String Ascii ZArith NArith Bool Lia.
Import ListNotations.
Open Scope string_scope.

(** ** JavaScript values

    A raw record is what [JSON.parse] returns, so values are JSON values, plus
    [undefined], which the program writes into fields it clears.  Numbers are
    the integers (type ids, counts and positions are all integers); strings are
    sequences of code units below 256. *)

#[local] Set Warnings "-register-all".

Inductive JsVal : Type :=
| JUndefined
| JNull
| JBool (b : bool)
| JNum (z : Z)
| JStr (s : string)
| JArr (items : list JsVal)
| JObj (props : list (string * JsVal)).

(** An object is the list of its own properties in creation order; a key
    listed twice counts once, at its first place and with its first value. *)
Definition Obj : Type := list (string * JsVal).

Inductive Exn : Type := TypeError.

Inductive Result (A : Type) : Type :=
| Ok (a : A)
| Throw (e : Exn).
Arguments Ok {A} a.
Arguments Throw {A} e.

Definition bind {A B : Type} (r : Result A) (k : A -> Result B) : Result B :=
  match r with
  | Ok a => k a
  | Throw e => Throw e
  end.

Definition fmap {A B : Type} (f : A -> B) (r : Result A) : Result B :=
  bind r (fun a => Ok (f a)).

Notation "x <- r ;; k" := (bind r (fun x => k))
  (at level 61, r at next level, right associativity).

(** ** Strings *)

Fixpoint startsWithStr (s p : string) {struct p} : bool :=
  match p with
  | EmptyString => true
  | String c p' =>
      match s with
      | EmptyString => false
      | String d s' => Ascii.eqb d c && startsWithStr s' p'
      end
  end.

Definition endsWithStr (s p : string) : bool :=
  let n := String.length s in
  let m := String.length p in
  (m <=? n)%nat && String.eqb (substring (n - m) m s) p.

Fixpoint includesStr (s p : string) : bool :=
  startsWithStr s p ||
  match s with
  | EmptyString => false
  | String _ s' => includesStr s' p
  end.

Fixpoint dropStr (n : nat) (s : string) : string :=
  match n, s with
  | S n', String _ s' => dropStr n' s'
  | _, _ => s
  end.

Definition isDigit (c : ascii) : bool :=
  let n := nat_of_ascii c in (48 <=? n)%nat && (n <=? 57)%nat.

Fixpoint allDigits (s : string) : bool :=
  match s with
  | EmptyString => true
  | String c s' => isDigit c && allDigits s'
  end.

(** ** Property keys and their enumeration order

    [OrdinaryOwnPropertyKeys]: array indices in ascending numeric order, then
    the other string keys in creation order. *)

Fixpoint digitsValue (s : string) (acc : N) : N :=
  match s with
  | EmptyString => acc
  | String c s' => digitsValue s' (10 * acc + N.of_nat (nat_of_ascii c - 48))%N
  end.

(** A canonical numeric string below 2^32 - 1. *)
Definition arrayIndex (k : string) : option N :=
  match k with
  | EmptyString => None
  | String c rest =>
      if allDigits k && (negb (Ascii.eqb c "0"%char) || String.eqb rest "")
         && (String.length k <=? 10)%nat
      then let n := digitsValue k 0 in
           if (n <? 4294967295)%N then Some n else None
      else None
  end.

Definition isArrayIndex (k : string) : bool :=
  match arrayIndex k with Some _ => true | None => false end.

Fixpoint dedup (ks : list string) : list string :=
  match ks with
  | [] => []
  | k :: rest => k :: filter (fun k' => negb (String.eqb k' k)) (dedup rest)
  end.

Fixpoint insertIndex (n : N) (k : string) (l : list (N * string)) : list (N * string) :=
  match l with
  | [] => [(n, k)]
  | (m, k') :: rest =>
      if (n <=? m)%N then (n, k) :: l else (m, k') :: insertIndex n k rest
  end.

Fixpoint indexKeys (ks : list string) : list (N * string) :=
  match ks with
  | [] => []
  | k :: rest =>
      match arrayIndex k with
      | Some n => insertIndex n k (indexKeys rest)
      | None => indexKeys rest
      end
  end.

Definition ownKeys (o : Obj) : list string :=
  let ks := dedup (map fst o) in
  map snd (indexKeys ks) ++ filter (fun k => negb (isArrayIndex k)) ks.

(** ** Objects *)

Fixpoint lookup (o : Obj) (k : string) : option JsVal :=
  match o with
  | [] => None
  | (k', v) :: rest => if String.eqb k' k then Some v else lookup rest k
  end.

(** [o.k] on an object whose own properties are [o], for a key that
    [Object.prototype] does not define. *)
Definition getField (o : Obj) (k : string) : JsVal :=
  match lookup o k with
  | Some v => v
  | None => JUndefined
  end.

(** [o.k = v], and the definition of one property of an object literal: an
    existing property keeps its place, a new one is created last. *)
Fixpoint setField (o : Obj) (k : string) (v : JsVal) : Obj :=
  match o with
  | [] => [(k, v)]
  | (k', v') :: rest =>
      if String.eqb k' k then (k', v) :: rest else (k', v') :: setField rest k v
  end.

(** [{...target, ...src}]: CopyDataProperties reads each own key of [src] in
    enumeration order and defines it on the target. *)
Definition spreadInto (target src : Obj) : Obj :=
  fold_left (fun acc k => setField acc k (getField src k)) (ownKeys src) target.

Inductive LitItem : Type :=
| Field (k : string) (v : JsVal)
| Spread (o : Obj).

Definition defineItem (acc : Obj) (it : LitItem) : Obj :=
  match it with
  | Field k v => setField acc k v
  | Spread o => spreadInto acc o
  end.

Definition objectLiteral (items : list LitItem) : Obj :=
  fold_left defineItem items [].

(** ** Operators and methods on values *)

Definition truthy (v : JsVal) : bool :=
  match v with
  | JUndefined | JNull => false
  | JBool b => b
  | JNum z => negb (z =? 0)%Z
  | JStr s => negb (String.eqb s "")
  | JArr _ | JObj _ => true
  end.

Definition isDefined (v : JsVal) : bool :=
  match v with JUndefined => false | _ => true end.

(** [a ?? b] *)
Definition coalesce (a b : JsVal) : JsVal :=
  match a with
  | JUndefined | JNull => b
  | _ => a
  end.

(** [v.k] for the names the program reads off a value that is not nullish
    ([path], [start], [line], [character], [length]). *)
Definition member (v : JsVal) (k : string) : JsVal :=
  match v with
  | JObj o => getField o k
  | JArr l => if String.eqb k "length" then JNum (Z.of_nat (List.length l)) else JUndefined
  | JStr s => if String.eqb k "length" then JNum (Z.of_nat (String.length s)) else JUndefined
  | _ => JUndefined
  end.

(** [v?.k] *)
Definition optMember (v : JsVal) (k : string) : JsVal :=
  match v with
  | JUndefined | JNull => JUndefined
  | _ => member v k
  end.

(** [a === b].  Two arrays or objects read from different fields of a parsed
    record are different references. *)
Definition strictEquals (a b : JsVal) : bool :=
  match a, b with
  | JUndefined, JUndefined => true
  | JNull, JNull => true
  | JBool x, JBool y => Bool.eqb x y
  | JNum x, JNum y => (x =? y)%Z
  | JStr x, JStr y => String.eqb x y
  | _, _ => false
  end.

(** [v.includes(tag)]: Array.prototype.includes on an array,
    String.prototype.includes on a string, a TypeError on anything else. *)
Definition includes (v : JsVal) (tag : string) : Result bool :=
  match v with
  | JArr l => Ok (existsb (fun x => strictEquals x (JStr tag)) l)
  | JStr s => Ok (includesStr s tag)
  | _ => Throw TypeError
  end.

(** [v.startsWith(p)] and [v.endsWith(p)] *)
Definition startsWith (v : JsVal) (p : string) : Result bool :=
  match v with
  | JStr s => Ok (startsWithStr s p)
  | _ => Throw TypeError
  end.

Definition endsWith (v : JsVal) (p : string) : Result bool :=
  match v with
  | JStr s => Ok (endsWithStr s p)
  | _ => Throw TypeError
  end.

(** [v?.startsWith(p)], as a condition *)
Definition optStartsWith (v : JsVal) (p : string) : Result bool :=
  match v with
  | JUndefined | JNull => Ok false
  | _ => startsWith v p
  end.

(** What [JSON.stringify] writes for an object: its own keys in enumeration
    order, without those whose value is [undefined]. *)
Definition emitted (o : Obj) : list (string * JsVal) :=
  filter (fun kv => isDefined (snd kv)) (map (fun k => (k, getField o k)) (ownKeys o)).

(** The properties of [Object.prototype]; each is a function or an object. *)
Definition objectPrototypeNames : list string :=
  [ "constructor"; "hasOwnProperty"; "isPrototypeOf"; "propertyIsEnumerable";
    "toLocaleString"; "toString"; "valueOf"; "__proto__";
    "__defineGetter__"; "__defineSetter__"; "__lookupGetter__"; "__lookupSetter__" ].

Definition inherited (k : string) : bool :=
  existsb (String.eqb k) objectPrototypeNames.

(** [c.toUpperCase()] for one code unit; letters outside a-z are left as they
    are (the program upper-cases the first letter of four fixed names only). *)
Definition toUpperCase (c : ascii) : ascii :=
  let n := nat_of_ascii c in
  if (97 <=? n)%nat && (n <=? 122)%nat then ascii_of_nat (n - 32) else c.

(** [s.replace(/^__/, "")] *)
Definition replaceLeadingUnderscores (s : string) : string :=
  if startsWithStr s "__" then dropStr 2 s else s.

Fixpoint spanNotAt (s : string) : string * string :=
  match s with
  | EmptyString => (EmptyString, EmptyString)
  | String c s' =>
      if Ascii.eqb c "@"%char then (EmptyString, s)
      else let (label, tail) := spanNotAt s' in (String c label, tail)
  end.

(** The first group of [/^__@([^@]+)@\d+$/.exec(name)], when the pattern matches. *)
Definition execKnownSymbol (name : string) : option string :=
  if startsWithStr name "__@" then
    match spanNotAt (dropStr 3 name) with
    | (String c label, String _ (String d digits)) =>
        if allDigits (String d digits) then Some (String c label) else None
    | _ => None
    end
  else None.

(** ** The classification engine *)

Section Engine.

(** [v < 0] begins with ToPrimitive on [v].  On an object ToPrimitive looks up
    [valueOf] and [toString]: an own property of either name holds a value
    that cannot be called and is skipped; the inherited [valueOf] gives back
    the object and the inherited [toString] gives a string.  So it raises a
    TypeError exactly when the object has an own property [toString].  On an
    array it joins the elements, converting every element but [undefined] and
    [null] to a string the same way. *)
Fixpoint raisesToPrimitive (v : JsVal) : bool :=
  match v with
  | JObj props =>
      match lookup props "toString" with
      | Some _ => true
      | None => false
      end
  | JArr items => existsb raisesToPrimitive items
  | _ => false
  end.

(** A string, and the string that an array joins to, go on through ToNumber,
    which is not modelled: the outcome of the comparison is left abstract
    there.  An object that does not raise converts to [[object Object]],
    which is not a number, so the comparison is false. *)
Variable coercedLtZero : JsVal -> bool.

Definition ltZero (v : JsVal) : Result bool :=
  match v with
  | JNum z => Ok (z <? 0)%Z
  | JUndefined | JNull | JBool _ => Ok false
  | JStr _ => Ok (coercedLtZero v)
  | JArr _ => if raisesToPrimitive v then Throw TypeError else Ok (coercedLtZero v)
  | JObj _ => if raisesToPrimitive v then Throw TypeError else Ok false
  end.

(** The state after the first lines of both helpers (simplify.ts 28-48,
    index.ts 168-188, the same text): the mutated record and the three locals. *)
Record Pre : Type := mkPre {
  preType : Obj;
  preIsDestructuring : bool;
  preFlags : JsVal;
  preDisplay : JsVal
}.

Definition preprocess (type0 : Obj) : Pre :=
  let type := setField type0 "name" (getField type0 "symbolName") in
  let type := setField type "symbolName" JUndefined in
  let isDestructuring := truthy (getField type "destructuringPattern") in
  let node := coalesce (coalesce (getField type "destructuringPattern")
                                 (getField type "referenceLocation"))
                       (getField type "firstDeclaration") in
  let type := setField type "destructuringPattern" JUndefined in
  let type := setField type "referenceLocation" JUndefined in
  let type := setField type "firstDeclaration" JUndefined in
  let type := setField type "location"
                (if truthy node
                 then JObj (objectLiteral
                        [ Field "path" (member node "path");
                          Field "line" (optMember (member node "start") "line");
                          Field "char" (optMember (member node "start") "character") ])
                 else node) in
  let flags := getField type "flags" in
  let type := setField type "flags" JUndefined in
  let display := getField type "display" in
  let type := setField type "display" JUndefined in
  let type := setField type "recursionId" JUndefined in
  mkPre type isDestructuring flags display.

Definition makeAliasedKindIfNamed (type : Obj) (kind : string) : string :=
  if truthy (getField type "name") then "Aliased" ++ kind else kind.

Definition firstToUpper (name : string) : Result string :=
  match name with
  | EmptyString => Throw TypeError
  | String c rest => Ok (String (toUpperCase c) rest)
  end.

(** The closure [makeAnonymous] of simplify.ts; [display] is the local it
    captures. *)
Definition makeAnonymous (display : JsVal) (type : Obj) (kind : option string)
  : Result Obj :=
  k <- match kind with
       | Some k => Ok k
       | None =>
           match getField type "name" with
           | JStr n => u <- firstToUpper (replaceLeadingUnderscores n) ;;
                       Ok ("Anonymous" ++ u)
           | _ => Throw TypeError
           end
       end ;;
  Ok (objectLiteral
        [ Field "kind" (JStr k);
          Spread type;
          Field "display" (if truthy (getField type "location") then JUndefined else display);
          Field "name" JUndefined ]).

(** The rules of [simplifyTypeHelper] (simplify.ts 50-237), on the state that
    [preprocess] leaves. *)
Definition simplifyRules (p : Pre) : Result Obj :=
  let type := preType p in
  let isDestructuring := preIsDestructuring p in
  let flags := preFlags p in
  let display := preDisplay p in
  if truthy (getField type "intrinsicName") then
    Ok (objectLiteral
          [ Field "kind" (JStr "Intrinsic");
            Spread type;
            Field "name" (getField type "intrinsicName");
            Field "intrinsicName" JUndefined ])
  else if truthy (getField type "unionTypes") then
    Ok (objectLiteral
          [ Field "kind" (JStr (makeAliasedKindIfNamed type "Union"));
            Field "count" (member (getField type "unionTypes") "length");
            Field "types" (getField type "unionTypes");
            Spread type;
            Field "unionTypes" JUndefined ])
  else if truthy (getField type "intersectionTypes") then
    Ok (objectLiteral
          [ Field "kind" (JStr (makeAliasedKindIfNamed type "Intersection"));
            Field "count" (member (getField type "intersectionTypes") "length");
            Field "types" (getField type "intersectionTypes");
            Spread type;
            Field "intersectionTypes" JUndefined ])
  else if truthy (getField type "indexedAccessObjectType") then
    Ok (objectLiteral
          [ Field "kind" (JStr (makeAliasedKindIfNamed type "IndexedAccess"));
            Spread type ])
  else if truthy (getField type "keyofType") then
    Ok (objectLiteral
          [ Field "kind" (JStr (makeAliasedKindIfNamed type "IndexType"));
            Spread type ])
  else if truthy (getField type "isTuple") then
    Ok (objectLiteral
          [ Field "kind" (JStr (makeAliasedKindIfNamed type "Tuple"));
            Spread type;
            Field "isTuple" JUndefined ])
  else if truthy (getField type "conditionalCheckType") then
    trueIsNegative <- ltZero (getField type "conditionalTrueType") ;;
    falseIsNegative <- ltZero (getField type "conditionalFalseType") ;;
    Ok (objectLiteral
          [ Field "kind" (JStr (makeAliasedKindIfNamed type "ConditionalType"));
            Spread type;
            Field "conditionalTrueType"
              (if trueIsNegative then JUndefined
               else getField type "conditionalTrueType");
            Field "conditionalFalseType"
              (if falseIsNegative then JUndefined
               else getField type "conditionalFalseType") ])
  else if truthy (getField type "substitutionBaseType") then
    Ok (objectLiteral
          [ Field "kind" (JStr (makeAliasedKindIfNamed type "SubstitutionType"));
            Field "originalType" (getField type "substitutionBaseType");
            Spread type;
            Field "substitutionBaseType" JUndefined ])
  else if truthy (getField type "reverseMappedSourceType") then
    Ok (objectLiteral
          [ Field "kind" (JStr (makeAliasedKindIfNamed type "ReverseMappedType"));
            Field "sourceType" (getField type "reverseMappedSourceType");
            Field "mappedType" (getField type "reverseMappedMappedType");
            Field "constraintType" (getField type "reverseMappedConstraintType");
            Spread type;
            Field "reverseMappedSourceType" JUndefined;
            Field "reverseMappedMappedType" JUndefined;
            Field "reverseMappedConstraintType" JUndefined ])
  else if truthy (getField type "aliasTypeArguments") then
    Ok (objectLiteral
          [ Field "kind" (JStr "GenericTypeAlias");
            Spread type;
            Field "instantiatedType" JUndefined;
            Field "aliasedType" (getField type "instantiatedType");
            Field "aliasedTypeTypeArguments" (getField type "typeArguments") ])
  else if truthy (getField type "instantiatedType")
          && truthy (optMember (getField type "typeArguments") "length") then
    let instantiatedIsSelf :=
      strictEquals (getField type "instantiatedType") (getField type "id") in
    Ok (objectLiteral
          [ Field "kind" (JStr (if instantiatedIsSelf then "GenericType"
                                else "GenericInstantiation"));
            Spread type;
            Field "instantiatedType"
              (if instantiatedIsSelf then JUndefined
               else getField type "instantiatedType") ])
  else if isDestructuring then
    Ok (objectLiteral [ Field "kind" (JStr "Destructuring"); Spread type ])
  else
  isString <- includes flags "StringLiteral" ;;
  if isString then
    Ok (objectLiteral
          [ Field "kind" (JStr "StringLiteral"); Field "value" display; Spread type ])
  else
  isNumber <- includes flags "NumberLiteral" ;;
  if isNumber then
    Ok (objectLiteral
          [ Field "kind" (JStr "NumberLiteral"); Field "value" display; Spread type ])
  else
  isBigInt <- includes flags "BigIntLiteral" ;;
  if isBigInt then
    Ok (objectLiteral
          [ Field "kind" (JStr "BigIntLiteral"); Field "value" display; Spread type ])
  else
  isTypeParameter <- includes flags "TypeParameter" ;;
  if isTypeParameter then
    Ok (objectLiteral [ Field "kind" (JStr "TypeParameter"); Spread type ])
  else
  isUnique <- includes flags "UniqueESSymbol" ;;
  if isUnique then
    Ok (objectLiteral [ Field "kind" (JStr "Unique"); Spread type ])
  else
  isKnownSymbol <- optStartsWith (getField type "name") "__@" ;;
  if isKnownSymbol then
    Ok (objectLiteral
          [ Field "kind" (JStr "KnownSymbol");
            Spread type;
            Field "name"
              (match getField type "name" with
               | JStr name =>
                   match execKnownSymbol name with
                   | Some label => JStr label
                   | None => JStr name
                   end
               | other => other
               end) ])
  else if strictEquals (getField type "name") (JStr "__function")
          || strictEquals (getField type "name") (JStr "__type")
          || strictEquals (getField type "name") (JStr "__class")
          || strictEquals (getField type "name") (JStr "__object") then
    makeAnonymous display type None
  else if strictEquals (getField type "name") (JStr "__jsxAttributes") then
    makeAnonymous display type (Some "JsxAttributesType")
  else
  isObject <- includes flags "Object" ;;
  if isObject && truthy (getField type "name") then
    Ok (objectLiteral [ Field "kind" (JStr "Object"); Spread type ])
  else
  isJsx <- (if truthy display then
              starts <- startsWith display "(props:" ;;
              if starts then endsWith display "=> Element" else Ok false
            else Ok false) ;;
  if isJsx then
    Ok (objectLiteral
          [ Field "kind" (JStr "JsxElementSignature"); Spread type; Field "display" display ])
  else
    Ok (objectLiteral
          [ Field "kind" (JStr "Other"); Spread type; Field "display" display ]).

Definition simplifyTypeHelper (type : Obj) : Result Obj :=
  simplifyRules (preprocess type).

(** The rules of [processTypeHelper] (index.ts 190-377). *)
Definition processRules (p : Pre) : Result Obj :=
  let type := preType p in
  let isDestructuring := preIsDestructuring p in
  let flags := preFlags p in
  let display := preDisplay p in
  if truthy (getField type "intrinsicName") then
    Ok (objectLiteral
          [ Field "kind" (JStr "Intrinsic");
            Spread type;
            Field "name" (getField type "intrinsicName");
            Field "intrinsicName" JUndefined ])
  else if truthy (getField type "unionTypes") then
    Ok (objectLiteral
          [ Field "kind" (JStr (makeAliasedKindIfNamed type "Union"));
            Field "count" (member (getField type "unionTypes") "length");
            Field "types" (getField type "unionTypes");
            Spread type;
            Field "unionTypes" JUndefined ])
  else if truthy (getField type "intersectionTypes") then
    Ok (objectLiteral
          [ Field "kind" (JStr (makeAliasedKindIfNamed type "Intersection"));
            Field "count" (member (getField type "intersectionTypes") "length");
            Field "types" (getField type "intersectionTypes");
            Spread type;
            Field "intersectionTypes" JUndefined ])
  else if truthy (getField type "indexedAccessObjectType") then
    Ok (objectLiteral
          [ Field "kind" (JStr (makeAliasedKindIfNamed type "IndexedAccess"));
            Spread type ])
  else if truthy (getField type "keyofType") then
    Ok (objectLiteral
          [ Field "kind" (JStr (makeAliasedKindIfNamed type "IndexType"));
            Spread type ])
  else if truthy (getField type "isTuple") then
    Ok (objectLiteral
          [ Field "kind" (JStr (makeAliasedKindIfNamed type "Tuple"));
            Spread type;
            Field "isTuple" JUndefined ])
  else if truthy (getField type "conditionalCheckType") then
    trueIsNegative <- ltZero (getField type "conditionalTrueType") ;;
    falseIsNegative <- ltZero (getField type "conditionalFalseType") ;;
    Ok (objectLiteral
          [ Field "kind" (JStr (makeAliasedKindIfNamed type "ConditionalType"));
            Spread type;
            Field "conditionalTrueType"
              (if trueIsNegative then JUndefined
               else getField type "conditionalTrueType");
            Field "conditionalFalseType"
              (if falseIsNegative then JUndefined
               else getField type "conditionalFalseType") ])
  else if truthy (getField type "substitutionBaseType") then
    Ok (objectLiteral
          [ Field "kind" (JStr (makeAliasedKindIfNamed type "SubstitutionType"));
            Field "originalType" (getField type "substitutionBaseType");
            Spread type;
            Field "substitutionBaseType" JUndefined ])
  else if truthy (getField type "reverseMappedSourceType") then
    Ok (objectLiteral
          [ Field "kind" (JStr (makeAliasedKindIfNamed type "ReverseMappedType"));
            Field "sourceType" (getField type "reverseMappedSourceType");
            Field "mappedType" (getField type "reverseMappedMappedType");
            Field "constraintType" (getField type "reverseMappedConstraintType");
            Spread type;
            Field "reverseMappedSourceType" JUndefined;
            Field "reverseMappedMappedType" JUndefined;
            Field "reverseMappedConstraintType" JUndefined ])
  else if truthy (getField type "aliasTypeArguments") then
    Ok (objectLiteral
          [ Field "kind" (JStr "GenericTypeAlias");
            Spread type;
            Field "instantiatedType" JUndefined;
            Field "aliasedType" (getField type "instantiatedType");
            Field "aliasedTypeTypeArguments" (getField type "typeArguments") ])
  else if truthy (getField type "instantiatedType")
          && truthy (optMember (getField type "typeArguments") "length") then
    let instantiatedIsSelf :=
      strictEquals (getField type "instantiatedType") (getField type "id") in
    Ok (objectLiteral
          [ Field "kind" (JStr (if instantiatedIsSelf then "GenericType"
                                else "GenericInstantiation"));
            Spread type;
            Field "instantiatedType"
              (if instantiatedIsSelf then JUndefined
               else getField type "instantiatedType") ])
  else if isDestructuring then
    Ok (objectLiteral [ Field "kind" (JStr "Destructuring"); Spread type ])
  else
  isString <- includes flags "StringLiteral" ;;
  if isString then
    Ok (objectLiteral
          [ Field "kind" (JStr "StringLiteral"); Field "value" display; Spread type ])
  else
  isNumber <- includes flags "NumberLiteral" ;;
  if isNumber then
    Ok (objectLiteral
          [ Field "kind" (JStr "NumberLiteral"); Field "value" display; Spread type ])
  else
  isBigInt <- includes flags "BigIntLiteral" ;;
  if isBigInt then
    Ok (objectLiteral
          [ Field "kind" (JStr "BigIntLiteral"); Field "value" display; Spread type ])
  else
  isTypeParameter <- includes flags "TypeParameter" ;;
  if isTypeParameter then
    Ok (objectLiteral [ Field "kind" (JStr "TypeParameter"); Spread type ])
  else
  isUnique <- includes flags "UniqueESSymbol" ;;
  if isUnique then
    Ok (objectLiteral [ Field "kind" (JStr "Unique"); Spread type ])
  else if strictEquals (getField type "name") (JStr "__type") then
    Ok (objectLiteral
          [ Field "kind" (JStr "AnonymousType");
            Spread type;
            Field "display" (if truthy (getField type "location") then JUndefined else display);
            Field "name" JUndefined ])
  else if strictEquals (getField type "name") (JStr "__object") then
    Ok (objectLiteral
          [ Field "kind" (JStr "AnonymousObject");
            Spread type;
            Field "display" (if truthy (getField type "location") then JUndefined else display);
            Field "name" JUndefined ])
  else
  isObject <- includes flags "Object" ;;
  if isObject && truthy (getField type "name") then
    Ok (objectLiteral [ Field "kind" (JStr "Object"); Spread type ])
  else
  isJsx <- (if truthy display then
              starts <- startsWith display "(props:" ;;
              if starts then endsWith display "=> Element" else Ok false
            else Ok false) ;;
  if isJsx then
    Ok (objectLiteral
          [ Field "kind" (JStr "JsxElementSignature"); Spread type; Field "display" display ])
  else
    Ok (objectLiteral
          [ Field "kind" (JStr "Other"); Spread type; Field "display" display ]).

Definition processTypeHelper (type : Obj) : Result Obj :=
  processRules (preprocess type).

End Engine.

(** ** Property order (simplify.ts 4-24, index.ts 144-164, the same text) *)

(** [!result[prop]]: an own property is read as it is; a name that is not an
    own property is found on [Object.prototype] or is [undefined]. *)
Definition isFalsyIn (result : Obj) (prop : string) : bool :=
  match lookup result prop with
  | Some v => negb (truthy v)
  | None => negb (inherited prop)
  end.

Definition copyRemaining (processed result : Obj) (prop : string) : Obj :=
  if isFalsyIn result prop
     && negb (String.eqb prop "location") && negb (String.eqb prop "display")
  then setField result prop (getField processed prop)
  else result.

Definition normalizePropertyOrder (processed : Obj) : Obj :=
  let result :=
    objectLiteral
      [ Field "id" (getField processed "id");
        Field "kind" (getField processed "kind");
        Field "name" (getField processed "name");
        Field "aliasTypeArguments" (getField processed "aliasTypeArguments");
        Field "instantiatedType" (getField processed "instantiatedType");
        Field "typeArguments" (getField processed "typeArguments") ] in
  let result := fold_left (copyRemaining processed) (ownKeys processed) result in
  let result := setField result "location" (getField processed "location") in
  setField result "display" (getField processed "display").

Definition simplifyType (coercedLtZero : JsVal -> bool) (type : Obj) : Result Obj :=
  processed <- simplifyTypeHelper coercedLtZero type ;;
  Ok (normalizePropertyOrder processed).

Definition processType (coercedLtZero : JsVal -> bool) (type : Obj) : Result (list Obj) :=
  processed <- processTypeHelper coercedLtZero type ;;
  Ok [normalizePropertyOrder processed].

(** ** Line mode of [processFile] (index.ts 63-91) *)

Section LineMode.

(** [JSON.parse] on a string: the decoded value, or the message of the
    SyntaxError it throws (it throws nothing else on a string). *)
Variable JSON_parse : string -> JsVal + string.

(** [chunk.replace(/^\[/, "")] *)
Definition replaceLeadingBracket (chunk : string) : string :=
  match chunk with
  | String c rest => if Ascii.eqb c "["%char then rest else chunk
  | EmptyString => chunk
  end.

(** [chunk.replace(/\]$/, "")] *)
Fixpoint replaceTrailingBracket (chunk : string) : string :=
  match chunk with
  | EmptyString => EmptyString
  | String c rest =>
      match rest with
      | EmptyString => if Ascii.eqb c "]"%char then EmptyString else chunk
      | String _ _ => String c (replaceTrailingBracket rest)
      end
  end.

Definition tab : string := String (ascii_of_nat 9) EmptyString.

(** What one call of the transform does besides updating [sawError]: the
    object it hands to [callback], if any, and the lines it logs. *)
Record Emission : Type := mkEmission {
  pushed : option JsVal;
  logged : list string
}.

Definition transform (sawError : bool) (chunk : string) : bool * Emission :=
  if negb sawError then
    match JSON_parse (replaceTrailingBracket (replaceLeadingBracket chunk)) with
    | inl obj => (sawError, mkEmission (Some obj) [])
    | inr message =>
        (true, mkEmission None
                 [ "Parse error: " ++ message;
                   tab ++ "Consider re-running with '-m'";
                   tab ++ "Dropping " ++ chunk ])
    end
  else (sawError, mkEmission None [ tab ++ "Dropping " ++ chunk ]).

(** The stream feeds the transform one chunk at a time. *)
Definition LineState : Type := (bool * list string)%type.

Inductive step : LineState -> Emission -> LineState -> Prop :=
| step_chunk : forall sawError chunk rest sawError' e,
    transform sawError chunk = (sawError', e) ->
    step (sawError, chunk :: rest) e (sawError', rest).

Inductive steps : LineState -> list Emission -> LineState -> Prop :=
| steps_done : forall s, steps s [] s
| steps_more : forall s e s' es s'',
    step s e s' -> steps s' es s'' -> steps s (e :: es) s''.

Fixpoint runLines (sawError : bool) (chunks : list string) : bool * list Emission :=
  match chunks with
  | [] => (sawError, [])
  | chunk :: rest =>
      let (sawError', e) := transform sawError chunk in
      let (final, es) := runLines sawError' rest in
      (final, e :: es)
  end.

Definition isDropped (chunk : string) (e : Emission) : Prop :=
  pushed e = None /\ In (tab ++ "Dropping " ++ chunk) (logged e).

End LineMode.

(** ** The rule list of the specification *)

(** The kinds the rules can assign. *)
Definition kindVocabulary : list string :=
  [ "Intrinsic";
    "Union"; "AliasedUnion"; "Intersection"; "AliasedIntersection";
    "IndexedAccess"; "AliasedIndexedAccess"; "IndexType"; "AliasedIndexType";
    "Tuple"; "AliasedTuple"; "ConditionalType"; "AliasedConditionalType";
    "SubstitutionType"; "AliasedSubstitutionType";
    "ReverseMappedType"; "AliasedReverseMappedType";
    "GenericTypeAlias"; "GenericType"; "GenericInstantiation"; "Destructuring";
    "StringLiteral"; "NumberLiteral"; "BigIntLiteral"; "TypeParameter"; "Unique";
    "KnownSymbol";
    "AnonymousFunction"; "AnonymousType"; "AnonymousClass"; "AnonymousObject";
    "JsxAttributesType"; "Object"; "JsxElementSignature"; "Other" ].

(** The structural markers of rules 1-9, in rule order. *)
Definition structuralMarkers : list string :=
  [ "intrinsicName"; "unionTypes"; "intersectionTypes"; "indexedAccessObjectType";
    "keyofType"; "isTuple"; "conditionalCheckType"; "substitutionBaseType";
    "reverseMappedSourceType" ].

(** Rules 2-9: marker and base kind. *)
Definition aliasableRules : list (string * string) :=
  [ ("unionTypes", "Union"); ("intersectionTypes", "Intersection");
    ("indexedAccessObjectType", "IndexedAccess"); ("keyofType", "IndexType");
    ("isTuple", "Tuple"); ("conditionalCheckType", "ConditionalType");
    ("substitutionBaseType", "SubstitutionType");
    ("reverseMappedSourceType", "ReverseMappedType") ].

(** No marker among [ks] holds on the raw record. *)
Definition noneOf (ks : list string) (raw : Obj) : bool :=
  forallb (fun k => negb (truthy (getField raw k))) ks.

(** The markers of the rules that come before the rule of marker [k]. *)
Fixpoint markersBefore (k : string) (ks : list string) : list string :=
  match ks with
  | [] => []
  | a :: rest => if String.eqb a k then [] else a :: markersBefore k rest
  end.

(** The flag tags of rules 13-17 and the names of rule 19 with their kinds. *)
Definition literalTags : list string :=
  [ "StringLiteral"; "NumberLiteral"; "BigIntLiteral"; "TypeParameter"; "UniqueESSymbol" ].

Definition anonymousKinds : list (string * string) :=
  [ ("__function", "AnonymousFunction"); ("__type", "AnonymousType");
    ("__class", "AnonymousClass"); ("__object", "AnonymousObject") ].

Definition notFlagged (flags : JsVal) (tag : string) : bool :=
  match includes flags tag with
  | Ok false => true
  | _ => false
  end.

(** None of rules 1-17 matches the raw record. *)
Definition reachesNameRules (raw : Obj) : bool :=
  noneOf (structuralMarkers ++ ["aliasTypeArguments"]) raw
  && negb (truthy (getField raw "instantiatedType")
           && truthy (optMember (getField raw "typeArguments") "length"))
  && negb (truthy (getField raw "destructuringPattern"))
  && forallb (notFlagged (getField raw "flags")) literalTags.

(** A field that is absent or a string. *)
Definition isText (v : JsVal) : bool :=
  match v with JUndefined | JStr _ => true | _ => false end.









(** The output order of the specification: the six leading names, the other
    fields of the classified record in creation order, then [location] and
    [display]; a field is written only if it has a value. *)
Definition leadingNames : list string :=
  [ "id"; "kind"; "name"; "aliasTypeArguments"; "instantiatedType"; "typeArguments" ].

Definition trailingNames : list string := [ "location"; "display" ].

Definition memStr (k : string) (ks : list string) : bool := existsb (String.eqb k) ks.

Definition specifiedOrder (processed : Obj) : list string :=
  leadingNames
  ++ filter (fun k => negb (memStr k leadingNames) && negb (memStr k trailingNames))
            (map fst processed)
  ++ trailingNames.

Definition specifiedOutput (processed : Obj) : list (string * JsVal) :=
  filter (fun kv => isDefined (snd kv))
         (map (fun k => (k, getField processed k)) (specifiedOrder processed)).

(** The first of the three location candidates that the record has. *)
Definition firstCandidate (raw : Obj) : option JsVal :=
  find isDefined
       [ getField raw "destructuringPattern"; getField raw "referenceLocation";
         getField raw "firstDeclaration" ].

Definition locationOf (node : JsVal) : JsVal :=
  JObj [ ("path", member node "path");
         ("line", optMember (member node "start") "line");
         ("char", optMember (member node "start") "character") ].

Definition isNode (v : JsVal) : bool :=
  match v with JUndefined | JObj _ => true | _ => false end.

(** ** Auxiliary notions for the facts below *)

Definition plainKey (k : string) : bool := negb (isArrayIndex k) && negb (inherited k).

Definition movable (k : string) : bool :=
  negb (memStr k leadingNames) && negb (memStr k trailingNames).

(** Keys of a literal come from its items. *)
Definition itemKeys (it : LitItem) : list string :=
  match it with
  | Field k _ => [k]
  | Spread o => map fst o
  end.

Definition preNames : list string :=
  [ "name"; "symbolName"; "destructuringPattern"; "referenceLocation";
    "firstDeclaration"; "location"; "flags"; "display"; "recursionId" ].

(** The written output has field [k] with value [v]; it has no field [k]. *)
Definition hasField (o : Obj) (k : string) (v : JsVal) : Prop := In (k, v) (emitted o).
Definition lacksField (o : Obj) (k : string) : Prop := ~ In k (map fst (emitted o)).

(** The value an object literal gives field [k]: the last item defining it. *)
Fixpoint readLiteral (k : string) (items : list LitItem) (acc : option JsVal)
  : option JsVal :=
  match items with
  | [] => acc
  | Field k' v :: rest => readLiteral k rest (if String.eqb k' k then Some v else acc)
  | Spread o :: rest =>
      readLiteral k rest (match lookup o k with Some v => Some v | None => acc end)
  end.

(** The names a rule may define besides spreading the record. *)
Definition synthesizedNames : list string :=
  [ "kind"; "name"; "intrinsicName"; "count"; "types"; "unionTypes"; "intersectionTypes";
    "isTuple"; "conditionalTrueType"; "conditionalFalseType";
    "originalType"; "substitutionBaseType";
    "sourceType"; "mappedType"; "constraintType";
    "reverseMappedSourceType"; "reverseMappedMappedType"; "reverseMappedConstraintType";
    "instantiatedType"; "aliasedType"; "aliasedTypeTypeArguments"; "value"; "display" ].

Definition ruleItem (T : Obj) (it : LitItem) : Prop :=
  match it with
  | Field k _ => memStr k synthesizedNames = true
  | Spread o => o = T
  end.

(** [out] is a literal that spreads [T] and defines synthesized names only. *)
Definition classifiedFrom (T out : Obj) : Prop :=
  exists items,
    out = objectLiteral items /\ Forall (ruleItem T) items /\ In (Spread T) items.

(** The rules return a record whose kind is in the vocabulary. *)
Definition wellKinded (r : Result Obj) : Prop :=
  exists lit kind,
    r = Ok lit /\ getField lit "kind" = JStr kind /\ memStr kind kindVocabulary = true.

(** Rule 7 is the first rule that matches the record and one of its two
    comparisons with [0] raises. *)
Definition comparisonRaises (raw : Obj) : bool :=
  noneOf (markersBefore "conditionalCheckType" structuralMarkers) raw
  && truthy (getField raw "conditionalCheckType")
  && (raisesToPrimitive (getField raw "conditionalTrueType")
      || raisesToPrimitive (getField raw "conditionalFalseType")).

(** ** Worked records *)

(** The records below compare no string and no array with zero. *)
Definition noCoercion : JsVal -> bool := fun _ => false.

Definition fooUnion : Obj :=
  [ ("id", JNum 1); ("symbolName", JStr "Foo"); ("flags", JArr [JStr "Object"]);
    ("unionTypes", JArr [JNum 2; JNum 3]) ].

Definition anyIntrinsic : Obj :=
  [ ("id", JNum 7); ("flags", JArr [JStr "Object"]); ("intrinsicName", JStr "any") ].

Definition anyIntrinsicWithKind : Obj :=
  [ ("id", JNum 7); ("kind", JStr "Object"); ("flags", JArr [JStr "Object"]);
    ("intrinsicName", JStr "any") ].

Definition onlyId : Obj := [ ("id", JNum 1) ].

Definition plainObject : Obj :=
  [ ("id", JNum 4); ("symbolName", JStr "Point"); ("flags", JArr [JStr "Object"]);
    ("display", JStr "Point") ].

Definition plainObjectWithKind : Obj :=
  [ ("id", JNum 4); ("kind", JNum 0); ("flags", JArr [JStr "Object"]) ].



Definition fooUnionWithCount : Obj := (fooUnion ++ [ ("count", JNum 7) ])%list.

Definition fooUnionWithKind : Obj := (fooUnion ++ [ ("kind", JStr "Foo") ])%list.




Definition indexNamed : Obj :=
  [ ("id", JNum 7); ("0", JBool true); ("flags", JArr []) ].

Definition prototypeNamed : Obj :=
  [ ("id", JNum 7); ("constructor", JNum 3); ("flags", JArr []) ].

Definition node (path : string) (line character : Z) : JsVal :=
  JObj [ ("path", JStr path);
         ("start", JObj [ ("line", JNum line); ("character", JNum character) ]) ].

Definition destructured : Obj :=
  [ ("id", JNum 9); ("flags", JArr []);
    ("referenceLocation", node "b.ts" 3 4);
    ("destructuringPattern", node "a.ts" 1 2) ].

Definition conditional : Obj :=
  [ ("id", JNum 5); ("flags", JArr [JStr "Conditional"]); ("conditionalCheckType", JNum 6);
    ("conditionalTrueType", JNum (-1)); ("conditionalFalseType", JNum 5) ].

(** A parser that accepts the one line [{}] serves to run the line mode. *)
Definition parseOnlyEmptyObject (s : string) : JsVal + string :=
  if String.eqb s "{}" then inl (JObj []) else inr "Unexpected end of JSON input".

(** ** Further notions: the rules the claims leave out, and the output stage *)

(** None of rules 1-12 matches the raw record, so rule 13 reads [flags]. *)
Definition reachesFlagRules (raw : Obj) : bool :=
  noneOf (structuralMarkers ++ ["aliasTypeArguments"]) raw
  && negb (truthy (getField raw "instantiatedType")
           && truthy (optMember (getField raw "typeArguments") "length"))
  && negb (truthy (getField raw "destructuringPattern")).

(** A value on which [includes] can be called. *)
Definition isSearchable (v : JsVal) : bool :=
  match v with JArr _ | JStr _ => true | _ => false end.

(** Markers of rules 2-9 that the rule clears, and those it leaves in place. *)
Definition clearedMarkers : list string :=
  [ "unionTypes"; "intersectionTypes"; "isTuple"; "substitutionBaseType";
    "reverseMappedSourceType" ].

Definition keptMarkers : list string :=
  [ "indexedAccessObjectType"; "keyofType"; "conditionalCheckType" ].


(** The kinds under which each implementation can write [display]. *)
Definition displayKinds : list string :=
  [ "AnonymousFunction"; "AnonymousType"; "AnonymousClass"; "AnonymousObject";
    "JsxAttributesType"; "JsxElementSignature"; "Other" ].

Definition processDisplayKinds : list string :=
  [ "AnonymousType"; "AnonymousObject"; "JsxElementSignature"; "Other" ].

(** An item of a rule's literal after its leading [kind]. *)
Definition afterKind (T : Obj) (it : LitItem) : Prop :=
  match it with
  | Field k _ => String.eqb k "kind" = false
  | Spread o => o = T
  end.

(** [out] is a literal that starts with [kind], then spreads [T]. *)
Definition kindLeads (T out : Obj) : Prop :=
  exists kind items,
    out = objectLiteral (Field "kind" (JStr kind) :: items)
    /\ Forall (afterKind T) items /\ In (Spread T) items.

(** [label] is what the pattern of rule 18 captures: not empty, without [@]. *)
Fixpoint noAt (s : string) : bool :=
  match s with
  | EmptyString => true
  | String c s' => negb (Ascii.eqb c "@"%char) && noAt s'
  end.

Definition isLabel (s : string) : bool := negb (String.eqb s "") && noAt s.

Definition isDigits (s : string) : bool := negb (String.eqb s "") && allDigits s.

(** Line mode: a chunk that parses once its brackets are removed, and the
    values of the chunks before the first one that does not. *)
Definition cleaned (chunk : string) : string :=
  replaceTrailingBracket (replaceLeadingBracket chunk).

Definition parses (JSON_parse : string -> JsVal + string) (chunk : string) : bool :=
  match JSON_parse (cleaned chunk) with inl _ => true | inr _ => false end.

Fixpoint parsedPrefix (JSON_parse : string -> JsVal + string) (chunks : list string)
  : list JsVal :=
  match chunks with
  | [] => []
  | chunk :: rest =>
      match JSON_parse (cleaned chunk) with
      | inl obj => obj :: parsedPrefix JSON_parse rest
      | inr _ => []
      end
  end.

Definition pushedValues (es : list Emission) : list JsVal :=
  flat_map (fun e => match pushed e with Some obj => [obj] | None => [] end) es.

(** What reaches the next stage.  The [Transform] of Node pushes the value
    handed to [callback] unless it is [null] or [undefined]. *)
Definition isForwarded (v : JsVal) : bool :=
  match v with
  | JNull | JUndefined => false
  | _ => true
  end.

Definition forwardedValues (es : list Emission) : list JsVal :=
  flat_map (fun e => match pushed e with
                     | Some obj => if isForwarded obj then [obj] else []
                     | None => []
                     end) es.

(** A parser that accepts the lines [{}] and [null]. *)
Definition parseEmptyObjectOrNull (s : string) : JsVal + string :=
  if String.eqb s "{}" then inl (JObj [])
  else if String.eqb s "null" then inl JNull
  else inr "Unexpected end of JSON input".

(** ** The output stage of [processFile] (index.ts 107-126) *)

Section OutputStage.

(** The record type and [JSON.stringify] on it are left abstract. *)
Variable Chunk : Type.
Variable JSON_stringify : Chunk -> string.

Definition newline : string := String (ascii_of_nat 10) EmptyString.

(** One call of the transform: the new value of [first] and what it pushes. *)
Definition writeChunk (first : bool) (chunk : Chunk) : bool * list string :=
  if first then (false, [ "["; JSON_stringify chunk ])
  else (first, [ "," ++ newline; JSON_stringify chunk ]).

(** [flush] *)
Definition writeEnd : list string := [ "]" ].

Fixpoint writeChunks (first : bool) (chunks : list Chunk) : list string :=
  match chunks with
  | [] => writeEnd
  | chunk :: rest =>
      let (first', out) := writeChunk first chunk in
      (out ++ writeChunks first' rest)%list
  end.

(** The text that reaches the next stage, [first] starting as [true]. *)
Definition written (chunks : list Chunk) : string :=
  String.concat "" (writeChunks true chunks).

End OutputStage.

(** Both rule sets return the same record. *)
Definition sameRecord (a b : Result Obj) : Prop := exists lit, a = Ok lit /\ b = Ok lit.

(** The [display] of a classified record: none, or [d] under one of [kinds]. *)
Definition displayFrom (kinds : list string) (d : JsVal) (out : Obj) : Prop :=
  getField out "display" = JUndefined
  \/ (getField out "display" = d
      /\ exists kind, getField out "kind" = JStr kind /\ memStr kind kinds = true).


(** ** More worked records *)

Definition conditionalWithToString : Obj :=
  [ ("id", JNum 5); ("flags", JArr []); ("conditionalCheckType", JNum 6);
    ("conditionalTrueType", JNum 5);
    ("conditionalFalseType", JObj [ ("toString", JNum 0) ]) ].

Definition unionWithoutFlags : Obj :=
  [ ("id", JNum 1); ("unionTypes", JArr [JNum 2; JNum 3]) ].

Definition barIntersection : Obj :=
  [ ("id", JNum 2); ("flags", JArr [JStr "Intersection"]);
    ("intersectionTypes", JArr [JNum 4; JNum 5; JNum 6]) ].

Definition substituted : Obj :=
  [ ("id", JNum 3); ("flags", JArr [JStr "Substitution"]); ("substitutionBaseType", JNum 4) ].

Definition reverseMapped : Obj :=
  [ ("id", JNum 3); ("flags", JArr [JStr "Object"]); ("reverseMappedSourceType", JNum 4);
    ("reverseMappedMappedType", JNum 5); ("reverseMappedConstraintType", JNum 6) ].

Definition selfGeneric : Obj :=
  [ ("id", JNum 8); ("symbolName", JStr "Array"); ("flags", JArr [JStr "Object"]);
    ("instantiatedType", JNum 8); ("typeArguments", JArr [JNum 9]) ].


Definition unflagged : Obj :=
  [ ("id", JNum 3); ("flags", JArr []); ("display", JStr "unknown") ].

Definition iteratorSymbol : Obj :=
  [ ("id", JNum 3); ("symbolName", JStr "__@iterator@34"); ("flags", JArr [JStr "Object"]) ].

Definition jsxAttributes : Obj :=
  [ ("id", JNum 3); ("symbolName", JStr "__jsxAttributes"); ("flags", JArr [JStr "Object"]);
    ("display", JStr "{ children: Element }") ].

(** * Facts *)

#[local] Open Scope list_scope.

(** ** Objects *)

Lemma lookup_setField (o : Obj) (k k' : string) (v : JsVal) :
  lookup (setField o k v) k' = if String.eqb k k' then Some v else lookup o k'.
Proof.
  induction o as [|[k0 v0] rest IH]; simpl.
  - reflexivity.
  - destruct (String.eqb k0 k) eqn:E0; simpl.
    + apply String.eqb_eq in E0; subst k0.
      destruct (String.eqb k k'); reflexivity.
    + rewrite IH. destruct (String.eqb k0 k') eqn:E1; [|reflexivity].
      apply String.eqb_eq in E1; subst k'.
      rewrite String.eqb_sym, E0. reflexivity.
Qed.

Lemma getField_setField (o : Obj) (k k' : string) (v : JsVal) :
  getField (setField o k v) k' = if String.eqb k k' then v else getField o k'.
Proof.
  unfold getField. rewrite lookup_setField. destruct (String.eqb k k'); reflexivity.
Qed.

Lemma lookup_None_keys (o : Obj) (k : string) :
  lookup o k = None <-> ~ In k (map fst o).
Proof.
  induction o as [|[k0 v0] rest IH]; simpl.
  - tauto.
  - destruct (String.eqb k0 k) eqn:E.
    + apply String.eqb_eq in E. split; [discriminate | intros H; exfalso; apply H; auto].
    + apply String.eqb_neq in E. rewrite IH. tauto.
Qed.

Lemma keys_setField (o : Obj) (k : string) (v : JsVal) :
  map fst (setField o k v) =
  match lookup o k with
  | Some _ => map fst o
  | None => (map fst o ++ [k])%list
  end.
Proof.
  induction o as [|[k0 v0] rest IH]; simpl.
  - reflexivity.
  - destruct (String.eqb k0 k) eqn:E; simpl.
    + reflexivity.
    + rewrite IH. destruct (lookup rest k); reflexivity.
Qed.

Lemma setField_fresh (o : Obj) (k : string) (v : JsVal) :
  lookup o k = None -> setField o k v = (o ++ [(k, v)])%list.
Proof.
  induction o as [|[k0 v0] rest IH]; simpl; intros H.
  - reflexivity.
  - destruct (String.eqb k0 k); [discriminate|]. rewrite IH; auto.
Qed.

Lemma setField_same (o : Obj) (k : string) (v : JsVal) :
  lookup o k = Some v -> setField o k v = o.
Proof.
  induction o as [|[k0 v0] rest IH]; simpl; intros H.
  - discriminate.
  - destruct (String.eqb k0 k); [congruence|]. rewrite IH; auto.
Qed.

Lemma NoDup_setField (o : Obj) (k : string) (v : JsVal) :
  NoDup (map fst o) -> NoDup (map fst (setField o k v)).
Proof.
  intros H. rewrite keys_setField. destruct (lookup o k) eqn:E; [assumption|].
  apply lookup_None_keys in E.
  apply NoDup_app; [assumption | repeat constructor; simpl; tauto |].
  intros x Hx [<-|[]]. contradiction.
Qed.

(** ** Enumeration order *)

Lemma memStr_In (k : string) (ks : list string) : memStr k ks = true <-> In k ks.
Proof.
  unfold memStr. rewrite existsb_exists. split.
  - intros [x [Hx E]]. apply String.eqb_eq in E. subst. assumption.
  - intros H. exists k. split; [assumption | apply String.eqb_refl].
Qed.

Lemma memStr_false (k : string) (ks : list string) : memStr k ks = false <-> ~ In k ks.
Proof.
  rewrite <- memStr_In. destruct (memStr k ks); split; congruence.
Qed.

Lemma In_dedup (k : string) (ks : list string) : In k (dedup ks) <-> In k ks.
Proof.
  induction ks as [|a ks IH]; simpl; [tauto|].
  rewrite filter_In, IH, negb_true_iff, String.eqb_neq.
  destruct (string_dec a k); [subst; tauto|].
  split; [tauto | intros [?|?]; [tauto | right; split; congruence]].
Qed.

Lemma dedup_NoDup (ks : list string) : NoDup ks -> dedup ks = ks.
Proof.
  induction 1 as [|a ks Ha Hks IH]; simpl; [reflexivity|].
  rewrite IH. f_equal. apply forallb_filter_id. apply forallb_forall.
  intros x Hx. apply negb_true_iff, String.eqb_neq. congruence.
Qed.

Lemma In_insertIndex (x : N * string) (n : N) (k : string) (l : list (N * string)) :
  In x (insertIndex n k l) <-> x = (n, k) \/ In x l.
Proof.
  induction l as [|[m k'] l IH]; simpl.
  - intuition congruence.
  - destruct (n <=? m)%N; simpl; [intuition congruence|].
    rewrite IH. intuition congruence.
Qed.

Lemma In_indexKeys (k : string) (ks : list string) :
  In k (map snd (indexKeys ks)) <-> In k ks /\ isArrayIndex k = true.
Proof.
  unfold isArrayIndex. induction ks as [|a ks IH]; simpl; [tauto|].
  destruct (arrayIndex a) as [n|] eqn:E.
  - rewrite in_map_iff. split.
    + intros [[m k'] [Hk Hin]]. simpl in Hk. subst k'.
      apply In_insertIndex in Hin. destruct Hin as [Heq|Hin].
      * inversion Heq; subst. rewrite E. auto.
      * assert (In k (map snd (indexKeys ks))) as H
          by (apply in_map_iff; exists (m, k); auto).
        apply IH in H. tauto.
    + intros [[->|Hin] Hidx].
      * exists (n, k). split; [reflexivity | apply In_insertIndex; auto].
      * assert (In k (map snd (indexKeys ks))) as H by (apply IH; auto).
        apply in_map_iff in H. destruct H as [[m k'] [Hk H]]. simpl in Hk. subst k'.
        exists (m, k). split; [reflexivity | apply In_insertIndex; auto].
  - rewrite IH. split; [tauto|]. intros [[->|Hin] Hidx]; [|tauto].
    rewrite E in Hidx. discriminate.
Qed.

Lemma In_ownKeys (o : Obj) (k : string) : In k (ownKeys o) <-> In k (map fst o).
Proof.
  unfold ownKeys. rewrite in_app_iff, In_indexKeys, filter_In, In_dedup.
  destruct (isArrayIndex k); simpl; intuition congruence.
Qed.

Lemma indexKeys_plain (ks : list string) :
  Forall (fun k => isArrayIndex k = false) ks -> indexKeys ks = [].
Proof.
  unfold isArrayIndex. induction 1 as [|a ks Ha _ IH]; simpl; [reflexivity|].
  destruct (arrayIndex a); [discriminate | assumption].
Qed.

Lemma ownKeys_plain (o : Obj) :
  NoDup (map fst o) ->
  Forall (fun k => isArrayIndex k = false) (map fst o) ->
  ownKeys o = map fst o.
Proof.
  intros Hnd Hplain. unfold ownKeys. rewrite (dedup_NoDup _ Hnd).
  rewrite (indexKeys_plain _ Hplain). simpl.
  apply forallb_filter_id. apply forallb_forall. intros k Hk.
  rewrite Forall_forall in Hplain. rewrite (Hplain k Hk). reflexivity.
Qed.

(** ** Spread and object literals *)

Lemma lookup_fold_setField (f : string -> JsVal) (ks : list string) (t : Obj) (k : string) :
  lookup (fold_left (fun acc k => setField acc k (f k)) ks t) k =
  if memStr k ks then Some (f k) else lookup t k.
Proof.
  revert t. induction ks as [|a ks IH]; intros t; simpl; [reflexivity|].
  rewrite IH, lookup_setField.
  fold (memStr k ks). destruct (memStr k ks).
  - rewrite orb_true_r. reflexivity.
  - rewrite orb_false_r, (String.eqb_sym k a).
    destruct (String.eqb a k) eqn:E; [|reflexivity].
    apply String.eqb_eq in E. subst. reflexivity.
Qed.

Lemma lookup_spreadInto (t src : Obj) (k : string) :
  lookup (spreadInto t src) k =
  match lookup src k with
  | Some v => Some v
  | None => lookup t k
  end.
Proof.
  unfold spreadInto. rewrite lookup_fold_setField.
  destruct (lookup src k) as [v|] eqn:E.
  - assert (memStr k (ownKeys src) = true) as ->.
    { apply memStr_In, In_ownKeys. destruct (in_dec string_dec k (map fst src)) as [H|H]; auto.
      apply lookup_None_keys in H. congruence. }
    unfold getField. rewrite E. reflexivity.
  - assert (memStr k (ownKeys src) = false) as ->; [|reflexivity].
    apply memStr_false. rewrite In_ownKeys. apply lookup_None_keys. assumption.
Qed.

Lemma NoDup_fold_setField (f : string -> JsVal) (ks : list string) (t : Obj) :
  NoDup (map fst t) -> NoDup (map fst (fold_left (fun acc k => setField acc k (f k)) ks t)).
Proof.
  revert t. induction ks as [|a ks IH]; intros t H; simpl; [assumption|].
  apply IH, NoDup_setField, H.
Qed.

Lemma NoDup_defineItem (acc : Obj) (it : LitItem) :
  NoDup (map fst acc) -> NoDup (map fst (defineItem acc it)).
Proof.
  destruct it; simpl; [apply NoDup_setField | apply NoDup_fold_setField].
Qed.

Lemma NoDup_objectLiteral (items : list LitItem) : NoDup (map fst (objectLiteral items)).
Proof.
  unfold objectLiteral. assert (NoDup (map fst (@nil (string * JsVal)))) as H by constructor.
  revert H. generalize (@nil (string * JsVal)).
  induction items as [|it items IH]; intros acc H; simpl; [assumption|].
  apply IH, NoDup_defineItem, H.
Qed.

Lemma keys_fold_setField (P : string -> Prop) (f : string -> JsVal) (ks : list string) (t : Obj) :
  Forall P ks -> Forall P (map fst t) ->
  Forall P (map fst (fold_left (fun acc k => setField acc k (f k)) ks t)).
Proof.
  revert t. induction ks as [|a ks IH]; intros t Hks Ht; simpl; [assumption|].
  inversion Hks; subst. apply IH; [assumption|].
  rewrite keys_setField. destruct (lookup t a); [assumption|].
  apply Forall_app. split; [assumption | constructor; [assumption | constructor]].
Qed.

Lemma keys_objectLiteral (P : string -> Prop) (items : list LitItem) :
  Forall (fun it => Forall P (itemKeys it)) items ->
  Forall P (map fst (objectLiteral items)).
Proof.
  unfold objectLiteral. assert (Forall P (map fst (@nil (string * JsVal)))) as H by constructor.
  revert H. generalize (@nil (string * JsVal)).
  induction items as [|it items IH]; intros acc Hacc Hit; simpl; [assumption|].
  inversion Hit as [|? ? Hhd Htl]; subst. apply IH; [|assumption].
  destruct it as [k v|o]; simpl in *.
  - rewrite keys_setField. destruct (lookup acc k); [assumption|].
    apply Forall_app. split; assumption.
  - apply keys_fold_setField; [|assumption].
    apply Forall_forall. intros k Hk. apply In_ownKeys in Hk.
    rewrite Forall_forall in Hhd. auto.
Qed.

(** ** The property-order pass *)

Lemma lookup_app (o1 o2 : Obj) (k : string) :
  lookup (o1 ++ o2) k = match lookup o1 k with Some v => Some v | None => lookup o2 k end.
Proof.
  induction o1 as [|[k0 v0] o1 IH]; simpl; [reflexivity|].
  destruct (String.eqb k0 k); [reflexivity | apply IH].
Qed.

Lemma lookup_tabulate (f : string -> JsVal) (ks : list string) (k : string) :
  lookup (map (fun k => (k, f k)) ks) k = if memStr k ks then Some (f k) else None.
Proof.
  induction ks as [|a ks IH]; simpl; [reflexivity|].
  rewrite (String.eqb_sym k a). destruct (String.eqb a k) eqn:E; simpl.
  - apply String.eqb_eq in E. subst. reflexivity.
  - apply IH.
Qed.

Lemma isFalsyIn_own (result : Obj) (k : string) :
  inherited k = false -> isFalsyIn result k = negb (truthy (getField result k)).
Proof.
  intros H. unfold isFalsyIn, getField. destruct (lookup result k); [reflexivity|].
  rewrite H. reflexivity.
Qed.

Lemma getField_copy_loop (p : Obj) (ks : list string) (res : Obj) (k : string) :
  inherited k = false -> k <> "location" -> k <> "display" ->
  getField (fold_left (copyRemaining p) ks res) k =
  if negb (truthy (getField res k)) && memStr k ks then getField p k else getField res k.
Proof.
  intros Hin Hl Hd. revert res.
  induction ks as [|a ks IH]; intros res; simpl.
  - rewrite andb_false_r. reflexivity.
  - rewrite IH. fold (memStr k ks). unfold copyRemaining.
    destruct (String.eqb k a) eqn:E.
    + apply String.eqb_eq in E. subst a.
      rewrite (isFalsyIn_own _ _ Hin).
      apply String.eqb_neq in Hl, Hd. rewrite Hl, Hd. simpl.
      rewrite andb_true_r.
      destruct (truthy (getField res k)) eqn:T; simpl.
      * rewrite T. reflexivity.
      * rewrite getField_setField, String.eqb_refl.
        destruct (negb (truthy (getField p k)) && memStr k ks); reflexivity.
    + simpl.
      assert (getField (if isFalsyIn res a && negb (a =? "location") && negb (a =? "display")
                        then setField res a (getField p a) else res) k = getField res k) as ->.
      { destruct (isFalsyIn res a && negb (a =? "location") && negb (a =? "display"));
          [|reflexivity].
        rewrite getField_setField, String.eqb_sym, E. reflexivity. }
      reflexivity.
Qed.

Lemma leading_literal (p : Obj) :
  objectLiteral
    [ Field "id" (getField p "id");
      Field "kind" (getField p "kind");
      Field "name" (getField p "name");
      Field "aliasTypeArguments" (getField p "aliasTypeArguments");
      Field "instantiatedType" (getField p "instantiatedType");
      Field "typeArguments" (getField p "typeArguments") ]
  = map (fun k => (k, getField p k)) leadingNames.
Proof. reflexivity. Qed.

(** Every field of the classified record keeps its value through the
    property-order pass, unless its name is a property of [Object.prototype]. *)
Lemma getField_normalizePropertyOrder (p : Obj) (k : string) :
  inherited k = false ->
  getField (normalizePropertyOrder p) k = getField p k.
Proof.
  intros Hin. unfold normalizePropertyOrder. rewrite leading_literal.
  rewrite !getField_setField.
  destruct (String.eqb "display" k) eqn:Ed; [apply String.eqb_eq in Ed; subst; reflexivity|].
  destruct (String.eqb "location" k) eqn:El; [apply String.eqb_eq in El; subst; reflexivity|].
  apply String.eqb_neq in Ed, El.
  rewrite getField_copy_loop by congruence.
  assert (getField (map (fun k => (k, getField p k)) leadingNames) k
          = if memStr k leadingNames then getField p k else JUndefined) as ->.
  { unfold getField at 1. rewrite lookup_tabulate.
    destruct (memStr k leadingNames); reflexivity. }
  destruct (memStr k leadingNames) eqn:Hlead.
  - destruct (negb (truthy (getField p k)) && memStr k (ownKeys p)); reflexivity.
  - simpl. destruct (memStr k (ownKeys p)) eqn:Hown; [reflexivity|].
    apply memStr_false in Hown. rewrite In_ownKeys in Hown.
    apply lookup_None_keys in Hown. unfold getField. rewrite Hown. reflexivity.
Qed.

Lemma copy_loop_plain (p : Obj) (ks : list string) (acc : Obj) :
  NoDup ks ->
  (forall k, In k ks -> inherited k = false) ->
  (forall k, In k ks -> ~ In k (map fst acc)) ->
  fold_left (copyRemaining p) ks (map (fun k => (k, getField p k)) leadingNames ++ acc)
  = (map (fun k => (k, getField p k)) leadingNames
      ++ acc ++ map (fun k => (k, getField p k)) (filter movable ks))%list.
Proof.
  intros Hnd. revert acc. induction Hnd as [|a ks Ha Hnd IH]; intros acc Hinh Hfresh.
  - simpl. rewrite app_nil_r. reflexivity.
  - cbn [fold_left filter].
    assert (forall k, In k ks -> inherited k = false) as Hinh' by (intros; apply Hinh; simpl; auto).
    destruct (memStr a leadingNames) eqn:Hlead.
    + (* a leading name: already there, with the same value *)
      replace (movable a) with false by (unfold movable; rewrite Hlead; reflexivity).
      assert (copyRemaining p (map (fun k => (k, getField p k)) leadingNames ++ acc) a
              = (map (fun k => (k, getField p k)) leadingNames ++ acc)%list) as ->.
      { unfold copyRemaining.
        destruct (isFalsyIn _ a && negb (a =? "location") && negb (a =? "display"));
          [|reflexivity].
        apply setField_same. rewrite lookup_app, lookup_tabulate, Hlead. reflexivity. }
      apply IH; [assumption|]. intros k Hk. apply Hfresh. simpl; auto.
    + destruct (memStr a trailingNames) eqn:Htrail.
      * replace (movable a) with false
          by (unfold movable; rewrite Hlead, Htrail; reflexivity).
        assert (copyRemaining p (map (fun k => (k, getField p k)) leadingNames ++ acc) a
                = (map (fun k => (k, getField p k)) leadingNames ++ acc)%list) as ->.
        { unfold copyRemaining. unfold memStr, trailingNames in Htrail. simpl in Htrail.
          rewrite orb_false_r in Htrail.
          destruct (a =? "location"), (a =? "display"); try discriminate;
            rewrite ?andb_false_r; reflexivity. }
        apply IH; [assumption|]. intros k Hk. apply Hfresh. simpl; auto.
      * replace (movable a) with true
          by (unfold movable; rewrite Hlead, Htrail; reflexivity).
        cbn [map].
        assert (lookup (map (fun k => (k, getField p k)) leadingNames ++ acc) a = None) as Hnone.
        { rewrite lookup_app, lookup_tabulate, Hlead. apply lookup_None_keys, Hfresh. simpl; auto. }
        assert (copyRemaining p (map (fun k => (k, getField p k)) leadingNames ++ acc) a
                = (map (fun k => (k, getField p k)) leadingNames
                     ++ (acc ++ [(a, getField p a)]))%list) as ->.
        { unfold copyRemaining, isFalsyIn. rewrite Hnone, (Hinh a) by (simpl; auto).
          unfold memStr, trailingNames in Htrail. simpl in Htrail.
          rewrite orb_false_r in Htrail. apply orb_false_elim in Htrail.
          destruct Htrail as [-> ->]. cbn [negb andb].
          rewrite (setField_fresh _ _ _ Hnone), app_assoc. reflexivity. }
        rewrite IH; [rewrite <- app_assoc; reflexivity | assumption |].
        intros k Hk. rewrite map_app, in_app_iff. simpl. intros [H|[H|[]]].
        -- apply (Hfresh k); simpl; auto.
        -- subst. contradiction.
Qed.

Lemma plainKey_spec (k : string) :
  plainKey k = true <-> isArrayIndex k = false /\ inherited k = false.
Proof.
  unfold plainKey. rewrite andb_true_iff, !negb_true_iff. tauto.
Qed.

Lemma normalizePropertyOrder_plain (p : Obj) :
  NoDup (map fst p) ->
  Forall (fun k => plainKey k = true) (map fst p) ->
  normalizePropertyOrder p = map (fun k => (k, getField p k)) (specifiedOrder p).
Proof.
  intros Hnd Hplain. unfold normalizePropertyOrder. rewrite leading_literal.
  rewrite ownKeys_plain; [|assumption|].
  2:{ eapply Forall_impl; [|exact Hplain]. intros k Hk. apply plainKey_spec in Hk. tauto. }
  rewrite <- (app_nil_r (map (fun k => (k, getField p k)) leadingNames)) at 1.
  rewrite copy_loop_plain; [|assumption| |simpl; tauto].
  2:{ rewrite Forall_forall in Hplain. intros k Hk. apply Hplain, plainKey_spec in Hk. tauto. }
  cbn [app]. rewrite <- map_app.
  assert (forall t, memStr t trailingNames = true ->
                    memStr t (leadingNames ++ filter movable (map fst p)) = false) as Hfree.
  { intros t Ht. apply memStr_false. rewrite in_app_iff, filter_In. unfold movable.
    rewrite Ht. intros [H|[_ H]].
    - apply memStr_In in Ht. simpl in H, Ht.
      intuition (subst; discriminate).
    - rewrite andb_false_r in H. discriminate. }
  rewrite (setField_fresh _ "location").
  2:{ rewrite lookup_tabulate, Hfree; reflexivity. }
  rewrite (setField_fresh _ "display").
  2:{ rewrite lookup_app, lookup_tabulate, Hfree by reflexivity. reflexivity. }
  unfold specifiedOrder, trailingNames. fold movable.
  rewrite <- app_assoc, !map_app. reflexivity.
Qed.

Lemma NoDup_specifiedOrder (p : Obj) : NoDup (map fst p) -> NoDup (specifiedOrder p).
Proof.
  intros Hnd. unfold specifiedOrder. fold movable.
  apply NoDup_app.
  - unfold leadingNames. repeat constructor; simpl; intuition discriminate.
  - apply NoDup_app.
    + apply NoDup_filter. assumption.
    + unfold trailingNames. repeat constructor; simpl; intuition discriminate.
    + intros k Hk Ht. apply filter_In in Hk. destruct Hk as [_ Hk]. unfold movable in Hk.
      apply memStr_In in Ht. rewrite Ht, andb_false_r in Hk. discriminate.
  - intros k Hk Hin. apply memStr_In in Hk. apply in_app_iff in Hin. destruct Hin as [Hin|Hin].
    + apply filter_In in Hin. destruct Hin as [_ Hin]. unfold movable in Hin.
      rewrite Hk in Hin. discriminate.
    + simpl in Hin. unfold memStr in Hk. simpl in Hk.
      destruct Hin as [<-|[<-|[]]]; discriminate.
Qed.

Lemma plain_specifiedOrder (p : Obj) :
  Forall (fun k => plainKey k = true) (map fst p) ->
  Forall (fun k => plainKey k = true) (specifiedOrder p).
Proof.
  intros Hplain. unfold specifiedOrder. rewrite !Forall_app. repeat split.
  - repeat constructor.
  - rewrite Forall_forall in *. intros k Hk. apply filter_In in Hk. apply Hplain. tauto.
  - repeat constructor.
Qed.

Lemma emitted_tabulate (f : string -> JsVal) (ks : list string) :
  NoDup ks -> Forall (fun k => isArrayIndex k = false) ks ->
  emitted (map (fun k => (k, f k)) ks)
  = filter (fun kv => isDefined (snd kv)) (map (fun k => (k, f k)) ks).
Proof.
  intros Hnd Hplain. unfold emitted.
  assert (map fst (map (fun k => (k, f k)) ks) = ks) as Hkeys.
  { rewrite map_map. simpl. apply map_id. }
  rewrite ownKeys_plain; rewrite Hkeys; try assumption.
  f_equal. apply map_ext_in. intros k Hk.
  unfold getField. rewrite lookup_tabulate.
  apply memStr_In in Hk. rewrite Hk. reflexivity.
Qed.

(** With ordinary field names, the pass writes the fields in the specified
    order. *)
Lemma emitted_normalizePropertyOrder (p : Obj) :
  NoDup (map fst p) ->
  Forall (fun k => plainKey k = true) (map fst p) ->
  emitted (normalizePropertyOrder p) = specifiedOutput p.
Proof.
  intros Hnd Hplain. rewrite normalizePropertyOrder_plain by assumption.
  rewrite emitted_tabulate.
  - reflexivity.
  - apply NoDup_specifiedOrder. assumption.
  - eapply Forall_impl; [|apply plain_specifiedOrder; exact Hplain].
    intros k Hk. apply plainKey_spec in Hk. tauto.
Qed.

(** ** Preprocessing *)

Ltac split_orb H :=
  repeat match type of H with
         | (_ || _)%bool = false =>
             let H1 := fresh "Hne" in
             apply orb_false_elim in H; destruct H as [H1 H];
             rewrite String.eqb_sym in H1
         end.

Lemma lookup_preprocess_other (raw : Obj) (k : string) :
  memStr k preNames = false ->
  lookup (preType (preprocess raw)) k = lookup raw k.
Proof.
  intros H. unfold memStr, preNames in H. cbn [existsb] in H. split_orb H.
  unfold preprocess. cbn [preType]. rewrite !lookup_setField.
  repeat match goal with Hne : String.eqb _ k = false |- _ => rewrite Hne; clear Hne end.
  reflexivity.
Qed.

Lemma getField_preprocess_other (raw : Obj) (k : string) :
  memStr k preNames = false ->
  getField (preType (preprocess raw)) k = getField raw k.
Proof.
  intros H. unfold getField. rewrite lookup_preprocess_other by assumption. reflexivity.
Qed.

Lemma getField_preprocess_name (raw : Obj) :
  getField (preType (preprocess raw)) "name" = getField raw "symbolName".
Proof.
  unfold preprocess. cbn [preType]. rewrite !getField_setField. reflexivity.
Qed.

Lemma preFlags_preprocess (raw : Obj) : preFlags (preprocess raw) = getField raw "flags".
Proof.
  unfold preprocess. cbn [preFlags]. rewrite !getField_setField. reflexivity.
Qed.

Lemma preDisplay_preprocess (raw : Obj) : preDisplay (preprocess raw) = getField raw "display".
Proof.
  unfold preprocess. cbn [preDisplay]. rewrite !getField_setField. reflexivity.
Qed.

Lemma preIsDestructuring_preprocess (raw : Obj) :
  preIsDestructuring (preprocess raw) = truthy (getField raw "destructuringPattern").
Proof.
  unfold preprocess. cbn [preIsDestructuring]. rewrite !getField_setField. reflexivity.
Qed.

Lemma getField_preprocess_cleared (raw : Obj) (k : string) :
  In k [ "symbolName"; "destructuringPattern"; "referenceLocation"; "firstDeclaration";
         "flags"; "display"; "recursionId" ] ->
  lookup (preType (preprocess raw)) k = Some JUndefined.
Proof.
  intros H. unfold preprocess. cbn [preType]. rewrite !lookup_setField.
  simpl in H. repeat destruct H as [<-|H]; try reflexivity. destruct H.
Qed.

Lemma getField_preprocess_location (raw : Obj) :
  lookup (preType (preprocess raw)) "location" =
  Some (let node := coalesce (coalesce (getField raw "destructuringPattern")
                                       (getField raw "referenceLocation"))
                             (getField raw "firstDeclaration") in
        if truthy node then locationOf node else node).
Proof.
  unfold preprocess. cbn [preType]. rewrite !lookup_setField, !getField_setField.
  reflexivity.
Qed.

Lemma keys_preprocess (P : string -> Prop) (raw : Obj) :
  Forall P preNames -> Forall P (map fst raw) ->
  Forall P (map fst (preType (preprocess raw))).
Proof.
  intros Hpre Hraw. unfold preprocess. cbn [preType].
  rewrite Forall_forall in Hpre.
  repeat match goal with
         | |- Forall P (map fst (setField ?o ?k ?v)) =>
             rewrite (keys_setField o k v);
             assert (Forall P (map fst o));
             [| destruct (lookup o k);
                [assumption
                | apply Forall_app; split;
                  [assumption | constructor; [apply Hpre; simpl; tauto | constructor]]]]
         end.
  assumption.
Qed.

Lemma noneOf_spec (ks : list string) (raw : Obj) (k : string) :
  noneOf ks raw = true -> In k ks -> truthy (getField raw k) = false.
Proof.
  unfold noneOf. rewrite forallb_forall. intros H Hin.
  apply negb_true_iff, H, Hin.
Qed.

Lemma noneOf_preprocess (ks : list string) (raw : Obj) (k : string) :
  noneOf ks raw = true -> In k ks -> memStr k preNames = false ->
  truthy (getField (preType (preprocess raw)) k) = false.
Proof.
  intros H Hin Hk. rewrite getField_preprocess_other by assumption.
  eapply noneOf_spec; eassumption.
Qed.

(** ** What is written out *)

Lemma hasField_iff (o : Obj) (k : string) (v : JsVal) :
  hasField o k v <-> getField o k = v /\ isDefined v = true.
Proof.
  unfold hasField, emitted. rewrite filter_In, in_map_iff. simpl. split.
  - intros [[k' [E Hk]] Hd]. inversion E; subst. auto.
  - intros [<- Hd]. split; [|assumption]. exists k. split; [reflexivity|].
    apply In_ownKeys. destruct (in_dec string_dec k (map fst o)) as [H|H]; [assumption|].
    apply lookup_None_keys in H. unfold getField in Hd. rewrite H in Hd. discriminate.
Qed.

Lemma lacksField_iff (o : Obj) (k : string) :
  lacksField o k <-> getField o k = JUndefined.
Proof.
  unfold lacksField. split.
  - intros H. destruct (isDefined (getField o k)) eqn:Hd.
    + exfalso. apply H. apply in_map_iff. exists (k, getField o k). split; [reflexivity|].
      apply hasField_iff. auto.
    + destruct (getField o k); try discriminate. reflexivity.
  - intros H Hin. apply in_map_iff in Hin. destruct Hin as [[k' v] [E Hin]].
    simpl in E. subst k'. apply hasField_iff in Hin. destruct Hin as [E Hd].
    rewrite H in E. subst v. discriminate.
Qed.

Lemma lookup_fold_defineItem (k : string) (items : list LitItem) (acc : Obj) :
  lookup (fold_left defineItem items acc) k = readLiteral k items (lookup acc k).
Proof.
  revert acc. induction items as [|it items IH]; intros acc; simpl; [reflexivity|].
  rewrite IH. destruct it as [k' v|o]; simpl.
  - rewrite lookup_setField. reflexivity.
  - rewrite lookup_spreadInto. reflexivity.
Qed.

Lemma lookup_objectLiteral (k : string) (items : list LitItem) :
  lookup (objectLiteral items) k = readLiteral k items None.
Proof. unfold objectLiteral. apply lookup_fold_defineItem. Qed.

Lemma getField_objectLiteral (k : string) (items : list LitItem) :
  getField (objectLiteral items) k =
  match readLiteral k items None with Some v => v | None => JUndefined end.
Proof. unfold getField. rewrite lookup_objectLiteral. reflexivity. Qed.

Ltac read_literal :=
  rewrite ?getField_objectLiteral, ?lookup_objectLiteral;
  cbn [readLiteral String.eqb Ascii.eqb Bool.eqb andb].

Ltac skip_markers H :=
  rewrite ?(noneOf_preprocess _ _ "intrinsicName" H),
          ?(noneOf_preprocess _ _ "unionTypes" H),
          ?(noneOf_preprocess _ _ "intersectionTypes" H),
          ?(noneOf_preprocess _ _ "indexedAccessObjectType" H),
          ?(noneOf_preprocess _ _ "keyofType" H),
          ?(noneOf_preprocess _ _ "isTuple" H),
          ?(noneOf_preprocess _ _ "conditionalCheckType" H),
          ?(noneOf_preprocess _ _ "substitutionBaseType" H),
          ?(noneOf_preprocess _ _ "reverseMappedSourceType" H)
    by first [reflexivity | simpl; tauto].

Ltac fire_marker k H :=
  rewrite (getField_preprocess_other _ k) by reflexivity; rewrite H.

(** A field of the final output, read off the classified record. *)
Ltac through_order :=
  rewrite ?getField_normalizePropertyOrder by reflexivity.

(** ** The comparisons of rule 7 *)

Lemma ltZero_returns (lt : JsVal -> bool) (v : JsVal) :
  raisesToPrimitive v = false -> exists negative, ltZero lt v = Ok negative.
Proof.
  intros H. destruct v; cbn [ltZero]; try (eexists; reflexivity);
    rewrite H; eexists; reflexivity.
Qed.

Lemma ltZero_raises (lt : JsVal -> bool) (v : JsVal) :
  raisesToPrimitive v = true -> ltZero lt v = Throw TypeError.
Proof.
  intros H. destruct v; try discriminate H; cbn [ltZero]; rewrite H; reflexivity.
Qed.

Lemma ltZero_Throw (lt : JsVal -> bool) (v : JsVal) (e : Exn) :
  ltZero lt v = Throw e -> raisesToPrimitive v = true.
Proof.
  destruct (raisesToPrimitive v) eqn:H; [reflexivity|].
  destruct (ltZero_returns lt v H) as [negative ->]. discriminate.
Qed.

Lemma markersBefore_conditional :
  markersBefore "conditionalCheckType" structuralMarkers
  = [ "intrinsicName"; "unionTypes"; "intersectionTypes"; "indexedAccessObjectType";
      "keyofType"; "isTuple" ]%string.
Proof. reflexivity. Qed.

Lemma comparisonRaises_preprocess (raw : Obj) :
  comparisonRaises (preType (preprocess raw)) = comparisonRaises raw.
Proof.
  unfold comparisonRaises, noneOf. rewrite markersBefore_conditional. cbn [forallb].
  rewrite !(getField_preprocess_other raw) by reflexivity. reflexivity.
Qed.

(** What [comparisonRaises T = false] says once rule 7 is reached. *)
Lemma comparisonRaises_reached (T : Obj) :
  comparisonRaises T = false ->
  truthy (getField T "intrinsicName") = false ->
  truthy (getField T "unionTypes") = false ->
  truthy (getField T "intersectionTypes") = false ->
  truthy (getField T "indexedAccessObjectType") = false ->
  truthy (getField T "keyofType") = false ->
  truthy (getField T "isTuple") = false ->
  truthy (getField T "conditionalCheckType") = true ->
  raisesToPrimitive (getField T "conditionalTrueType") = false
  /\ raisesToPrimitive (getField T "conditionalFalseType") = false.
Proof.
  unfold comparisonRaises, noneOf. rewrite markersBefore_conditional. cbn [forallb].
  intros H H1 H2 H3 H4 H5 H6 H7. rewrite H1, H2, H3, H4, H5, H6, H7 in H.
  cbn [negb andb] in H. apply orb_false_elim in H. exact H.
Qed.

Lemma comparisonRaises_fired (raw : Obj) :
  noneOf (markersBefore "conditionalCheckType" structuralMarkers) raw = true ->
  truthy (getField raw "conditionalCheckType") = true ->
  comparisonRaises raw
  = (raisesToPrimitive (getField raw "conditionalTrueType")
     || raisesToPrimitive (getField raw "conditionalFalseType"))%bool.
Proof. intros Hnone Hcond. unfold comparisonRaises. rewrite Hnone, Hcond. reflexivity. Qed.

(** Rule 7 was reached and one of its comparisons raised, against
    [Hcompare : comparisonRaises _ = false]. *)
Ltac comparison_raised Hcompare :=
  exfalso;
  match goal with
  | E : ltZero _ _ = Throw _ |- _ =>
      apply ltZero_Throw in E;
      destruct (comparisonRaises_reached _ Hcompare) as [? ?]; try assumption; congruence
  end.

(** ** The rules, one at a time *)

Section EngineFacts.

Variable lt : JsVal -> bool.




(** ** The shape of every classified record *)

Ltac classified_leaf :=
  eexists; split; [reflexivity | split; [repeat constructor | simpl; auto 10]].

Ltac cascade_step :=
  match goal with
  | |- (if ?c then _ else _) = Ok _ -> _ => destruct c eqn:?
  | |- bind ?r _ = Ok _ -> _ => destruct r as [[|]|] eqn:?; cbn [bind]
  | |- Throw _ = Ok _ -> _ => discriminate
  end.

Lemma makeAnonymous_classified (d : JsVal) (T : Obj) (kind : option string) (out : Obj) :
  makeAnonymous d T kind = Ok out -> classifiedFrom T out.
Proof.
  unfold makeAnonymous.
  destruct (match kind with
            | Some k => Ok k
            | None => _
            end) as [k|e]; cbn [bind]; [|discriminate].
  intros H. inversion H; subst. classified_leaf.
Qed.

Lemma simplifyRules_classified (p : Pre) (out : Obj) :
  simplifyRules lt p = Ok out -> classifiedFrom (preType p) out.
Proof.
  unfold simplifyRules. cbv zeta.
  repeat cascade_step;
    try (let H := fresh in intros H; inversion H; subst; classified_leaf);
    apply makeAnonymous_classified.
Qed.

Lemma processRules_classified (p : Pre) (out : Obj) :
  processRules lt p = Ok out -> classifiedFrom (preType p) out.
Proof.
  unfold processRules. cbv zeta.
  repeat cascade_step;
    let H := fresh in intros H; inversion H; subst; classified_leaf.
Qed.

Lemma readLiteral_spared (T : Obj) (k : string) (items : list LitItem) (acc : option JsVal) :
  Forall (ruleItem T) items -> memStr k synthesizedNames = false ->
  lookup T k = None -> readLiteral k items acc = acc.
Proof.
  intros Hitems Hk HT. revert acc.
  induction Hitems as [|it items Hit _ IH]; intros acc; [reflexivity|].
  destruct it as [k' v|o]; cbn [readLiteral]; rewrite IH; unfold ruleItem in Hit.
  - destruct (String.eqb k' k) eqn:E; [|reflexivity].
    apply String.eqb_eq in E. congruence.
  - subst o. rewrite HT. reflexivity.
Qed.

Lemma readLiteral_spread (T : Obj) (k : string) (v : JsVal) (items : list LitItem)
      (acc : option JsVal) :
  Forall (ruleItem T) items -> memStr k synthesizedNames = false ->
  lookup T k = Some v -> acc = Some v \/ In (Spread T) items ->
  readLiteral k items acc = Some v.
Proof.
  intros Hitems Hk HT. revert acc.
  induction Hitems as [|it items Hit _ IH]; intros acc Hor.
  - destruct Hor as [?|[]]. assumption.
  - destruct it as [k' v'|o]; cbn [readLiteral]; apply IH; unfold ruleItem in Hit.
    + destruct (String.eqb k' k) eqn:E.
      * apply String.eqb_eq in E. congruence.
      * destruct Hor as [?|[?|?]]; [auto | discriminate | auto].
    + subst o. rewrite HT. auto.
Qed.

(** A field that no rule defines is the preprocessed record's. *)
Lemma lookup_classified (T out : Obj) (k : string) :
  classifiedFrom T out -> memStr k synthesizedNames = false ->
  lookup out k = lookup T k.
Proof.
  intros [items [-> [Hitems Hin]]] Hk. rewrite lookup_objectLiteral.
  destruct (lookup T k) as [v|] eqn:HT.
  - eapply readLiteral_spread; eauto.
  - eapply readLiteral_spared; eauto.
Qed.

Lemma keys_classified (P : string -> Prop) (T out : Obj) :
  classifiedFrom T out ->
  Forall P synthesizedNames -> Forall P (map fst T) ->
  Forall P (map fst out) /\ NoDup (map fst out).
Proof.
  intros [items [-> [Hitems _]]] Hsyn HT. split; [|apply NoDup_objectLiteral].
  apply keys_objectLiteral. eapply Forall_impl; [|exact Hitems].
  intros [k v|o] Hit; unfold ruleItem in Hit; cbn [itemKeys].
  - constructor; [|constructor]. rewrite Forall_forall in Hsyn.
    apply Hsyn, memStr_In, Hit.
  - subst. assumption.
Qed.

Lemma simplifyType_inv (raw out : Obj) :
  simplifyType lt raw = Ok out ->
  exists processed,
    simplifyTypeHelper lt raw = Ok processed /\
    out = normalizePropertyOrder processed /\
    classifiedFrom (preType (preprocess raw)) processed.
Proof.
  unfold simplifyType. destruct (simplifyTypeHelper lt raw) as [p|e] eqn:E; cbn [bind];
    [|discriminate].
  intros H. inversion H; subst. exists p. repeat split.
  apply simplifyRules_classified. exact E.
Qed.

Lemma classified_plain (raw processed : Obj) :
  Forall (fun k => plainKey k = true) (map fst raw) ->
  classifiedFrom (preType (preprocess raw)) processed ->
  Forall (fun k => plainKey k = true) (map fst processed) /\ NoDup (map fst processed).
Proof.
  intros Hraw Hc. eapply keys_classified; [exact Hc | |].
  - repeat constructor.
  - apply keys_preprocess; [repeat constructor | assumption].
Qed.

(** C6, as the code has it.  For a raw record none of whose field names is an
    array index or a property of [Object.prototype], both implementations
    write the fields of the classified record in the order [id], [kind],
    [name], [aliasTypeArguments], [instantiatedType], [typeArguments], then the
    other fields in the order the classified record got them, then [location],
    then [display], each only if it has a value; the classified record lists
    no field twice. *)
Theorem output_field_order (raw : Obj) :
  Forall (fun k => plainKey k = true) (map fst raw) ->
  fmap emitted (simplifyType lt raw) = fmap specifiedOutput (simplifyTypeHelper lt raw)
  /\ fmap (map emitted) (processType lt raw)
     = fmap (fun processed => [specifiedOutput processed]) (processTypeHelper lt raw)
  /\ (forall processed,
        simplifyTypeHelper lt raw = Ok processed \/ processTypeHelper lt raw = Ok processed ->
        NoDup (map fst processed)).
Proof.
  intros Hraw. repeat split.
  - unfold simplifyType. destruct (simplifyTypeHelper lt raw) as [p|e] eqn:E;
      cbn [fmap bind]; [|reflexivity].
    apply simplifyRules_classified in E.
    destruct (classified_plain _ _ Hraw E) as [Hplain Hnd].
    rewrite emitted_normalizePropertyOrder by assumption. reflexivity.
  - unfold processType. destruct (processTypeHelper lt raw) as [p|e] eqn:E;
      cbn [fmap bind map]; [|reflexivity].
    apply processRules_classified in E.
    destruct (classified_plain _ _ Hraw E) as [Hplain Hnd].
    rewrite emitted_normalizePropertyOrder by assumption. reflexivity.
  - intros p [E|E];
      [apply simplifyRules_classified in E | apply processRules_classified in E];
      apply (classified_plain _ _ Hraw E).
Qed.

(** C7.  When each of the three location candidates is absent or a node
    object, [location] is built from the first candidate the record has, out
    of its [path], [start.line] and [start.character], and is not written when
    the record has none; the three candidates themselves are never written.
    A record with a [destructuringPattern] takes its location from it. *)
Theorem location_resolution (raw out : Obj) :
  isNode (getField raw "destructuringPattern") = true ->
  isNode (getField raw "referenceLocation") = true ->
  isNode (getField raw "firstDeclaration") = true ->
  simplifyType lt raw = Ok out ->
  match firstCandidate raw with
  | Some node => hasField out "location" (locationOf node)
  | None => lacksField out "location"
  end
  /\ lacksField out "destructuringPattern"
  /\ lacksField out "referenceLocation"
  /\ lacksField out "firstDeclaration"
  /\ (isDefined (getField raw "destructuringPattern") = true ->
      hasField out "location" (locationOf (getField raw "destructuringPattern"))).
Proof.
  intros Hd Hr Hf Hout.
  destruct (simplifyType_inv _ _ Hout) as [p [_ [-> Hc]]].
  assert (getField (normalizePropertyOrder p) "location"
          = let node := coalesce (coalesce (getField raw "destructuringPattern")
                                           (getField raw "referenceLocation"))
                                 (getField raw "firstDeclaration") in
            if truthy node then locationOf node else node) as Hloc.
  { through_order. unfold getField at 1.
    rewrite (lookup_classified _ _ "location" Hc) by reflexivity.
    rewrite getField_preprocess_location. reflexivity. }
  assert (forall k, In k ["destructuringPattern"; "referenceLocation"; "firstDeclaration"] ->
                    lacksField (normalizePropertyOrder p) k) as Hgone.
  { intros k Hk. apply lacksField_iff.
    rewrite getField_normalizePropertyOrder
      by (simpl in Hk; repeat destruct Hk as [<-|Hk]; try reflexivity; destruct Hk).
    unfold getField. rewrite (lookup_classified _ _ k Hc)
      by (simpl in Hk; repeat destruct Hk as [<-|Hk]; try reflexivity; destruct Hk).
    rewrite getField_preprocess_cleared; [reflexivity|].
    simpl in *. tauto. }
  repeat split; try (apply Hgone; simpl; tauto).
  - unfold firstCandidate.
    destruct (getField raw "destructuringPattern"); try discriminate;
      destruct (getField raw "referenceLocation"); try discriminate;
      destruct (getField raw "firstDeclaration"); try discriminate;
      cbn [find isDefined]; rewrite ?hasField_iff, ?lacksField_iff, Hloc;
      cbn; auto.
  - intros Hdef. rewrite hasField_iff, Hloc.
    destruct (getField raw "destructuringPattern"); try discriminate. cbn. auto.
Qed.

Lemma simplifyTypeHelper_ConditionalType (raw : Obj) (trueIsNegative falseIsNegative : bool) :
  noneOf (markersBefore "conditionalCheckType" structuralMarkers) raw = true ->
  truthy (getField raw "conditionalCheckType") = true ->
  ltZero lt (getField raw "conditionalTrueType") = Ok trueIsNegative ->
  ltZero lt (getField raw "conditionalFalseType") = Ok falseIsNegative ->
  simplifyTypeHelper lt raw =
  Ok (objectLiteral
        [ Field "kind" (JStr (makeAliasedKindIfNamed (preType (preprocess raw)) "ConditionalType"));
          Spread (preType (preprocess raw));
          Field "conditionalTrueType"
            (if trueIsNegative then JUndefined else getField raw "conditionalTrueType");
          Field "conditionalFalseType"
            (if falseIsNegative then JUndefined else getField raw "conditionalFalseType") ]).
Proof.
  intros Hnone Hcond Htrue Hfalse. unfold simplifyTypeHelper, simplifyRules. cbv zeta.
  skip_markers Hnone. fire_marker "conditionalCheckType" Hcond.
  rewrite !(getField_preprocess_other raw) by reflexivity.
  rewrite Htrue, Hfalse. reflexivity.
Qed.

(** C8.  A record that reaches the conditional-type rule, and on whose two
    branches the comparison with [0] does not raise (as on every number), is
    classified; it keeps each of [conditionalTrueType] and
    [conditionalFalseType] when it is a number that is not negative, and does
    not write it when it is a negative number. *)
Theorem conditional_branch_sentinels (raw : Obj) :
  noneOf (markersBefore "conditionalCheckType" structuralMarkers) raw = true ->
  truthy (getField raw "conditionalCheckType") = true ->
  raisesToPrimitive (getField raw "conditionalTrueType") = false ->
  raisesToPrimitive (getField raw "conditionalFalseType") = false ->
  exists out,
    simplifyType lt raw = Ok out /\
    forall branch n,
      In branch ["conditionalTrueType"; "conditionalFalseType"] ->
      getField raw branch = JNum n ->
      ((0 <= n)%Z -> hasField out branch (JNum n)) /\
      ((n < 0)%Z -> lacksField out branch).
Proof.
  intros Hnone Hcond Htrue Hfalse.
  destruct (ltZero_returns lt _ Htrue) as [bt Ht].
  destruct (ltZero_returns lt _ Hfalse) as [bf Hf].
  eexists. unfold simplifyType.
  rewrite (simplifyTypeHelper_ConditionalType raw bt bf) by assumption. cbn [bind].
  split; [reflexivity|].
  intros branch n Hbranch Hn. rewrite hasField_iff, lacksField_iff.
  simpl in Hbranch. destruct Hbranch as [<-|[<-|[]]];
    through_order; read_literal; rewrite Hn in *; cbn [ltZero] in *;
    [ inversion Ht; subst bt | inversion Hf; subst bf ];
    destruct (n <? 0)%Z eqn:E;
    [apply Z.ltb_lt in E | apply Z.ltb_ge in E | apply Z.ltb_lt in E | apply Z.ltb_ge in E];
    (split; intros; [try lia; auto | try lia; auto]).
Qed.

(** C4, as the code has it.  For a record with no field named [kind] that
    reaches one of rules 2-9, and on which the comparisons of rule 7 do not
    raise when that is the rule, the kind is the rule's base kind, with the
    prefix [Aliased] exactly when [symbolName] is truthy (a non-empty string).
    For rule 2 on a record with no field named [count] or [types], [count] is
    the length of [unionTypes] and [types] is [unionTypes]. *)
Theorem aliased_prefix_iff_named (raw : Obj) (marker base : string) :
  In (marker, base) aliasableRules ->
  lookup raw "kind" = None ->
  noneOf (markersBefore marker structuralMarkers) raw = true ->
  truthy (getField raw marker) = true ->
  comparisonRaises raw = false ->
  exists out kind,
    simplifyType lt raw = Ok out /\
    hasField out "kind" (JStr kind) /\
    kind = (if truthy (getField raw "symbolName") then "Aliased" ++ base else base)%string /\
    startsWithStr kind "Aliased" = truthy (getField raw "symbolName") /\
    (marker = "unionTypes" ->
     lookup raw "count" = None -> lookup raw "types" = None ->
     forall members,
       getField raw "unionTypes" = JArr members ->
       hasField out "count" (JNum (Z.of_nat (List.length members))) /\
       hasField out "types" (JArr members)).
Proof.
  intros Hrule Hkind Hnone Hmark Hcompare.
  unfold aliasableRules in Hrule. simpl in Hrule.
  repeat (destruct Hrule as [Hrule|Hrule];
          [inversion Hrule; subst marker base; clear Hrule|]);
    [ .. | destruct Hrule ];
    ( try (rewrite (comparisonRaises_fired raw Hnone Hmark) in Hcompare;
           apply orb_false_elim in Hcompare;
           destruct (ltZero_returns lt _ (proj1 Hcompare)) as [trueIsNegative Htrue];
           destruct (ltZero_returns lt _ (proj2 Hcompare)) as [falseIsNegative Hfalse]);
      eexists; eexists; unfold simplifyType, simplifyTypeHelper, simplifyRules; cbv zeta;
      skip_markers Hnone;
      match goal with
      | H : truthy (getField raw ?k) = true |- _ => fire_marker k H
      end;
      rewrite ?(getField_preprocess_other raw "conditionalTrueType"),
              ?(getField_preprocess_other raw "conditionalFalseType") by reflexivity;
      rewrite ?Htrue, ?Hfalse;
      cbn [bind]; split; [reflexivity|];
      rewrite hasField_iff; through_order; read_literal;
      rewrite !lookup_preprocess_other by reflexivity; rewrite Hkind;
      unfold makeAliasedKindIfNamed; rewrite getField_preprocess_name;
      split; [split; reflexivity|];
      split; [reflexivity|];
      split; [destruct (truthy (getField raw "symbolName")); reflexivity|];
      intros Hunion; try discriminate Hunion;
      intros Hcount Htypes members Hmembers;
      rewrite !hasField_iff; through_order; read_literal;
      rewrite !lookup_preprocess_other by reflexivity; rewrite Hcount, Htypes;
      rewrite Hmembers; repeat split ).
Qed.

Lemma notFlagged_spec (flags : JsVal) (tag : string) :
  notFlagged flags tag = true -> includes flags tag = Ok false.
Proof.
  unfold notFlagged. destruct (includes flags tag) as [[|]|]; congruence.
Qed.

Lemma reachesNameRules_spec (raw : Obj) :
  reachesNameRules raw = true ->
  noneOf (structuralMarkers ++ ["aliasTypeArguments"]) raw = true
  /\ (truthy (getField raw "instantiatedType")
      && truthy (optMember (getField raw "typeArguments") "length")) = false
  /\ truthy (getField raw "destructuringPattern") = false
  /\ forall tag, In tag literalTags -> includes (getField raw "flags") tag = Ok false.
Proof.
  unfold reachesNameRules. rewrite !andb_true_iff, !negb_true_iff, forallb_forall.
  intros [[[H1 H2] H3] H4]. repeat split; try assumption.
  intros tag Htag. apply notFlagged_spec, H4, Htag.
Qed.


Lemma makeAnonymous_named (d : JsVal) (T : Obj) (tag kind : string) :
  In (tag, kind) anonymousKinds ->
  getField T "name" = JStr tag ->
  makeAnonymous d T None =
  Ok (objectLiteral
        [ Field "kind" (JStr kind);
          Spread T;
          Field "display" (if truthy (getField T "location") then JUndefined else d);
          Field "name" JUndefined ]).
Proof.
  intros Hin Hname. unfold makeAnonymous. rewrite Hname.
  simpl in Hin.
  repeat (destruct Hin as [Hin|Hin]; [inversion Hin; subst; reflexivity|]).
  destruct Hin.
Qed.


Lemma startsWithStr_app (s p q : string) :
  startsWithStr s (p ++ q)%string = true -> startsWithStr s p = true.
Proof.
  revert s. induction p as [|c p IH]; intros s; simpl; [reflexivity|].
  destruct s as [|d s]; [discriminate|].
  rewrite !andb_true_iff. intros [H1 H2]. split; [assumption | apply IH, H2].
Qed.

Lemma unreserved_name_facts (v : JsVal) :
  v = JUndefined \/ (exists s, v = JStr s /\ startsWithStr s "__" = false) ->
  optStartsWith v "__@" = Ok false
  /\ forall t, startsWithStr t "__" = true -> strictEquals v (JStr t) = false.
Proof.
  intros [->|[s [-> Hs]]]; split; try reflexivity.
  - cbn [optStartsWith startsWith]. f_equal.
    destruct (startsWithStr s "__@") eqn:E; [|reflexivity].
    apply (startsWithStr_app s "__" "@") in E. congruence.
  - intros t Ht. cbn [strictEquals]. destruct (String.eqb s t) eqn:E; [|reflexivity].
    apply String.eqb_eq in E. congruence.
Qed.

(** C10.  On a raw record whose [symbolName] is absent, or is a string that
    does not start with two underscores, [processType] returns exactly the
    one-element list of what [simplifyType] returns, and raises when it
    raises. *)
Theorem implementations_agree_off_reserved_names (raw : Obj) :
  getField raw "symbolName" = JUndefined
  \/ (exists s, getField raw "symbolName" = JStr s /\ startsWithStr s "__" = false) ->
  processType lt raw = fmap (fun out => [out]) (simplifyType lt raw).
Proof.
  intros Hname. apply unreserved_name_facts in Hname. destruct Hname as [Hknown Hnot].
  unfold processType, simplifyType, processTypeHelper, simplifyTypeHelper,
    processRules, simplifyRules.
  cbv zeta. rewrite !getField_preprocess_name.
  rewrite Hknown.
  rewrite !(Hnot "__function"), !(Hnot "__type"), !(Hnot "__class"), !(Hnot "__object"),
    !(Hnot "__jsxAttributes") by reflexivity.
  cbn [bind orb].
  match goal with
  | |- bind ?c _ = fmap _ (bind ?c _) => destruct c; reflexivity
  end.
Qed.

Lemma strictEquals_JStr (v : JsVal) (t : string) :
  strictEquals v (JStr t) = true -> v = JStr t.
Proof.
  destruct v; try discriminate. cbn [strictEquals]. intros H.
  apply String.eqb_eq in H. subst. reflexivity.
Qed.









(** ** Totality *)

Ltac total_step :=
  match goal with
  | |- wellKinded (if ?c then _ else _) => destruct c eqn:?
  | |- wellKinded (bind (Ok _) _) => cbn [bind]
  | |- wellKinded (bind (if ?c then _ else _) _) => destruct c eqn:?
  | |- wellKinded (bind (ltZero ?l ?v) _) => destruct (ltZero l v) eqn:?; cbn [bind]
  end.

Ltac total_leaf Hk :=
  repeat match goal with
         | |- context [if ?c then _ else _] => destruct c
         end;
  (eexists; eexists; split;
   [ reflexivity | split; [ read_literal; rewrite ?Hk; reflexivity | reflexivity ] ]).

Lemma anonymous_tag_cases (s : string) :
  (String.eqb s "__function" || String.eqb s "__type"
   || String.eqb s "__class" || String.eqb s "__object")%bool = true ->
  exists kind, In (s, kind) anonymousKinds.
Proof.
  rewrite !orb_true_iff, !String.eqb_eq. unfold anonymousKinds.
  intros [[[->| ->]| ->]| ->]; eexists; simpl; eauto 10.
Qed.

Lemma simplifyRules_total (p : Pre) (l : list JsVal) :
  preFlags p = JArr l ->
  isText (getField (preType p) "name") = true ->
  isText (preDisplay p) = true ->
  lookup (preType p) "kind" = None ->
  comparisonRaises (preType p) = false ->
  wellKinded (simplifyRules lt p).
Proof.
  intros Hf Hn Hd Hk Hcompare. unfold simplifyRules. cbv zeta. rewrite Hf.
  unfold makeAliasedKindIfNamed.
  destruct (truthy (getField (preType p) "name")) eqn:Hnamed;
    destruct (getField (preType p) "name") as [| | | |s| |] eqn:Hname; try discriminate Hn;
    destruct (preDisplay p) as [| | | |d| |] eqn:Hdisp; try discriminate Hd;
    cbn [includes optStartsWith startsWith endsWith strictEquals truthy bind orb];
    repeat total_step;
    try (comparison_raised Hcompare);
    try (total_leaf Hk);
    try discriminate;
    match goal with
    | H : (_ || _)%bool = true |- _ =>
        destruct (anonymous_tag_cases _ H) as [kind Hin];
        rewrite (makeAnonymous_named _ _ _ _ Hin Hname);
        simpl in Hin;
        repeat (destruct Hin as [Hin|Hin]; [inversion Hin; subst; total_leaf Hk|]);
        destruct Hin
    | |- wellKinded (makeAnonymous _ _ (Some _)) =>
        unfold makeAnonymous; cbn [bind]; total_leaf Hk
    end.
Qed.

Lemma processRules_total (p : Pre) (l : list JsVal) :
  preFlags p = JArr l ->
  isText (getField (preType p) "name") = true ->
  isText (preDisplay p) = true ->
  lookup (preType p) "kind" = None ->
  comparisonRaises (preType p) = false ->
  wellKinded (processRules lt p).
Proof.
  intros Hf Hn Hd Hk Hcompare. unfold processRules. cbv zeta. rewrite Hf.
  unfold makeAliasedKindIfNamed.
  destruct (truthy (getField (preType p) "name")) eqn:Hnamed;
    destruct (getField (preType p) "name") as [| | | |s| |] eqn:Hname; try discriminate Hn;
    destruct (preDisplay p) as [| | | |d| |] eqn:Hdisp; try discriminate Hd;
    cbn [includes startsWith endsWith strictEquals truthy bind orb];
    repeat total_step;
    first [ comparison_raised Hcompare | total_leaf Hk ].
Qed.

Lemma wellKinded_written (r : Result Obj) :
  wellKinded r ->
  exists out kind,
    fmap normalizePropertyOrder r = Ok out /\
    hasField out "kind" (JStr kind) /\
    In kind kindVocabulary /\ kind <> ""%string.
Proof.
  intros [lit [kind [-> [Hkind Hvoc]]]].
  exists (normalizePropertyOrder lit), kind. split; [reflexivity|].
  split; [apply hasField_iff; through_order; auto|].
  split; [apply memStr_In, Hvoc|].
  intros ->. discriminate.
Qed.

(** C2, as the code has it.  For a raw record whose [flags] is an array, whose
    [symbolName] and [display] are strings when it has them, which has no
    field named [kind], and on which the comparisons of rule 7 do not raise
    when that is the rule, each implementation returns one record, and its
    kind is a non-empty string of the vocabulary; nothing is raised. *)
Theorem classification_total (raw : Obj) (tags : list JsVal) :
  lookup raw "kind" = None ->
  getField raw "flags" = JArr tags ->
  isText (getField raw "symbolName") = true ->
  isText (getField raw "display") = true ->
  comparisonRaises raw = false ->
  (exists out kind,
      simplifyType lt raw = Ok out /\
      hasField out "kind" (JStr kind) /\ In kind kindVocabulary /\ kind <> ""%string)
  /\ (exists out kind,
         processType lt raw = Ok [out] /\
         hasField out "kind" (JStr kind) /\ In kind kindVocabulary /\ kind <> ""%string).
Proof.
  intros Hkind Hflags Hname Hdisplay Hcompare.
  assert (comparisonRaises (preType (preprocess raw)) = false) as Hc
      by (rewrite comparisonRaises_preprocess; exact Hcompare).
  assert (preFlags (preprocess raw) = JArr tags) as Hf
      by (rewrite preFlags_preprocess; exact Hflags).
  assert (isText (getField (preType (preprocess raw)) "name") = true) as Hn
      by (rewrite getField_preprocess_name; exact Hname).
  assert (isText (preDisplay (preprocess raw)) = true) as Hd
      by (rewrite preDisplay_preprocess; exact Hdisplay).
  assert (lookup (preType (preprocess raw)) "kind" = None) as Hk
      by (rewrite lookup_preprocess_other by reflexivity; exact Hkind).
  split.
  - destruct (wellKinded_written _ (simplifyRules_total _ _ Hf Hn Hd Hk Hc))
      as [out [kind [Hout H]]].
    exists out, kind. split; [|exact H].
    unfold simplifyType, simplifyTypeHelper.
    destruct (simplifyRules lt (preprocess raw)); cbn in *; congruence.
  - destruct (wellKinded_written _ (processRules_total _ _ Hf Hn Hd Hk Hc))
      as [out [kind [Hout H]]].
    exists out, kind. split; [|exact H].
    unfold processType, processTypeHelper.
    destruct (processRules lt (preprocess raw)); cbn in *; congruence.
Qed.

End EngineFacts.

(** ** Line mode *)

Section LineModeFacts.

Variable JSON_parse : string -> JsVal + string.

Lemma transform_after_error (chunk : string) :
  transform JSON_parse true chunk
  = (true, mkEmission None [ (tab ++ "Dropping " ++ chunk)%string ]).
Proof. reflexivity. Qed.

Lemma transform_fault (sawError : bool) (chunk message : string) :
  JSON_parse (replaceTrailingBracket (replaceLeadingBracket chunk)) = inr message ->
  fst (transform JSON_parse sawError chunk) = true
  /\ isDropped chunk (snd (transform JSON_parse sawError chunk)).
Proof.
  intros H. unfold transform, isDropped.
  destruct sawError; cbn [negb]; [|rewrite H]; cbn [fst snd pushed logged];
    (split; [reflexivity | simpl; auto]).
Qed.

Lemma runLines_after_error (chunks : list string) :
  fst (runLines JSON_parse true chunks) = true
  /\ Forall2 isDropped chunks (snd (runLines JSON_parse true chunks)).
Proof.
  induction chunks as [|chunk rest [IH1 IH2]]; cbn [runLines].
  - split; [reflexivity | constructor].
  - rewrite transform_after_error.
    destruct (runLines JSON_parse true rest) as [final es]. cbn [fst snd] in *.
    split; [assumption|]. constructor; [|assumption].
    unfold isDropped. cbn. auto.
Qed.

Lemma runLines_app (sawError : bool) (l1 l2 : list string) :
  runLines JSON_parse sawError (l1 ++ l2) =
  (fst (runLines JSON_parse (fst (runLines JSON_parse sawError l1)) l2),
   snd (runLines JSON_parse sawError l1)
   ++ snd (runLines JSON_parse (fst (runLines JSON_parse sawError l1)) l2)).
Proof.
  revert sawError. induction l1 as [|chunk rest IH]; intros sawError;
    cbn [runLines app].
  - cbn [fst snd app]. destruct (runLines JSON_parse sawError l2); reflexivity.
  - destruct (transform JSON_parse sawError chunk) as [sawError' e]. rewrite IH.
    destruct (runLines JSON_parse sawError' rest) as [final es]. reflexivity.
Qed.

Lemma runLines_length (sawError : bool) (chunks : list string) :
  List.length (snd (runLines JSON_parse sawError chunks)) = List.length chunks.
Proof.
  revert sawError. induction chunks as [|chunk rest IH]; intros sawError;
    cbn [runLines]; [reflexivity|].
  destruct (transform JSON_parse sawError chunk) as [sawError' e]. specialize (IH sawError').
  destruct (runLines JSON_parse sawError' rest) as [final es]. cbn [snd] in *.
  cbn [List.length]. rewrite IH. reflexivity.
Qed.

(** The run always reaches the end of the input. *)
Lemma steps_runLines (sawError : bool) (chunks : list string) :
  steps JSON_parse (sawError, chunks) (snd (runLines JSON_parse sawError chunks))
        (fst (runLines JSON_parse sawError chunks), []).
Proof.
  revert sawError. induction chunks as [|chunk rest IH]; intros sawError;
    cbn [runLines].
  - constructor.
  - destruct (transform JSON_parse sawError chunk) as [sawError' e] eqn:E.
    specialize (IH sawError').
    destruct (runLines JSON_parse sawError' rest) as [final es]. cbn [fst snd] in *.
    econstructor; [constructor; exact E | exact IH].
Qed.

Lemma steps_deterministic (sawError final : bool) (chunks : list string) (es : list Emission) :
  steps JSON_parse (sawError, chunks) es (final, []) ->
  es = snd (runLines JSON_parse sawError chunks)
  /\ final = fst (runLines JSON_parse sawError chunks).
Proof.
  revert sawError es. induction chunks as [|chunk rest IH]; intros sawError es H.
  - inversion H as [|? ? ? ? ? Hstep]; subst; [auto | inversion Hstep].
  - inversion H as [|? ? ? ? ? Hstep Hrest]; subst.
    inversion Hstep as [? ? ? sawError' ? E]; subst.
    cbn [runLines]. rewrite E.
    destruct (IH _ _ Hrest) as [-> ->].
    destruct (runLines JSON_parse sawError' rest). auto.
Qed.

(** C9.  In line mode, when a line fails to parse, the run still consumes
    every line and ends with [sawError] set; it hands no object on for that
    line or for any later one, and logs each of them as dropped.  Once
    [sawError] is set no step hands an object on or clears it. *)
Theorem parse_fault_drops_the_rest (before after : list string) (bad message : string) :
  JSON_parse (replaceTrailingBracket (replaceLeadingBracket bad)) = inr message ->
  (exists es1 es2,
      steps JSON_parse (false, before ++ bad :: after) (es1 ++ es2) (true, [])
      /\ List.length es1 = List.length before
      /\ Forall2 isDropped (bad :: after) es2
      /\ forall es final,
           steps JSON_parse (false, before ++ bad :: after) es (final, []) ->
           es = es1 ++ es2 /\ final = true)
  /\ (forall chunks e s',
        step JSON_parse (true, chunks) e s' -> pushed e = None /\ fst s' = true).
Proof.
  intros Hbad. split.
  - pose proof (steps_runLines false (before ++ bad :: after)) as Hrun.
    rewrite runLines_app in Hrun. cbn [fst snd] in Hrun.
    set (b1 := fst (runLines JSON_parse false before)) in *.
    assert (fst (runLines JSON_parse b1 (bad :: after)) = true
            /\ Forall2 isDropped (bad :: after) (snd (runLines JSON_parse b1 (bad :: after))))
      as [Hfinal Hdrop].
    { cbn [runLines].
      destruct (transform_fault b1 bad message Hbad) as [Hflag Hd].
      destruct (transform JSON_parse b1 bad) as [b2 e]. cbn [fst snd] in Hflag, Hd. subst b2.
      destruct (runLines_after_error after) as [H1 H2].
      destruct (runLines JSON_parse true after) as [final es]. cbn [fst snd] in *.
      split; [assumption | constructor; assumption]. }
    rewrite Hfinal in Hrun.
    exists (snd (runLines JSON_parse false before)), (snd (runLines JSON_parse b1 (bad :: after))).
    split; [exact Hrun|]. split; [apply runLines_length|]. split; [exact Hdrop|].
    intros es final Hsteps. apply steps_deterministic in Hsteps.
    rewrite runLines_app in Hsteps. cbn [fst snd] in Hsteps. fold b1 in Hsteps.
    destruct Hsteps as [-> ->]. auto.
  - intros chunks e s' Hstep. inversion Hstep as [? chunk rest sawError' ? E]; subst.
    rewrite transform_after_error in E. inversion E; subst. auto.
Qed.

End LineModeFacts.

(** * The theorems at the worked records *)

Ltac evaluate := vm_compute; reflexivity.

Ltac has_field := apply hasField_iff; split; evaluate.



Lemma classification_total_witness :
  lookup plainObject "kind" = None
  /\ getField plainObject "flags" = JArr [JStr "Object"]
  /\ isText (getField plainObject "symbolName") = true
  /\ isText (getField plainObject "display") = true
  /\ comparisonRaises plainObject = false
  /\ exists out kind,
       simplifyType noCoercion plainObject = Ok out /\
       hasField out "kind" (JStr kind) /\ In kind kindVocabulary /\ kind <> ""%string.
Proof.
  do 5 (split; [evaluate|]).
  exact (proj1 (classification_total noCoercion plainObject [JStr "Object"]
                  ltac:(evaluate) ltac:(evaluate) ltac:(evaluate) ltac:(evaluate)
                  ltac:(evaluate))).
Defined.

(** Without [flags] both implementations raise; a raw [kind] is written as it is. *)
Lemma absent_flags_raise :
  simplifyType noCoercion onlyId = Throw TypeError
  /\ processType noCoercion onlyId = Throw TypeError
  /\ exists out,
       simplifyType noCoercion plainObjectWithKind = Ok out /\ hasField out "kind" (JNum 0).
Proof.
  do 2 (split; [evaluate|]). eexists. split; [evaluate | has_field].
Qed.



Lemma aliased_prefix_iff_named_witness :
  In ("unionTypes", "Union") aliasableRules
  /\ lookup fooUnion "kind" = None
  /\ noneOf (markersBefore "unionTypes" structuralMarkers) fooUnion = true
  /\ truthy (getField fooUnion "unionTypes") = true
  /\ comparisonRaises fooUnion = false
  /\ exists out,
       simplifyType noCoercion fooUnion = Ok out /\
       hasField out "kind" (JStr "AliasedUnion") /\
       hasField out "count" (JNum 2) /\
       hasField out "types" (JArr [JNum 2; JNum 3]).
Proof.
  split; [left; reflexivity|]. do 4 (split; [evaluate|]).
  destruct (aliased_prefix_iff_named noCoercion fooUnion "unionTypes" "Union"
              (or_introl eq_refl) ltac:(evaluate) ltac:(evaluate) ltac:(evaluate)
              ltac:(evaluate))
    as [out [kind [Hout [Hkind [Heq [_ Hunion]]]]]].
  exists out. split; [exact Hout|]. split; [rewrite Heq in Hkind; exact Hkind|].
  exact (Hunion ltac:(evaluate) ltac:(evaluate) ltac:(evaluate) [JNum 2; JNum 3] ltac:(evaluate)).
Defined.

(** Raw fields named [count] or [kind] replace what rule 2 computes. *)
Lemma raw_count_field_replaces_length :
  noneOf (markersBefore "unionTypes" structuralMarkers) fooUnionWithCount = true
  /\ getField fooUnionWithCount "unionTypes" = JArr [JNum 2; JNum 3]
  /\ truthy (getField fooUnionWithCount "symbolName") = true
  /\ (exists out,
        simplifyType noCoercion fooUnionWithCount = Ok out
        /\ hasField out "count" (JNum 7)
        /\ ~ hasField out "count" (JNum 2))
  /\ exists out,
       simplifyType noCoercion fooUnionWithKind = Ok out
       /\ hasField out "kind" (JStr "Foo")
       /\ ~ hasField out "kind" (JStr "AliasedUnion").
Proof.
  do 3 (split; [evaluate|]). split.
  - eexists. split; [evaluate|]. split; [has_field|].
    intros H. apply hasField_iff in H. destruct H as [H _]. vm_compute in H. discriminate H.
  - eexists. split; [evaluate|]. split; [has_field|].
    intros H. apply hasField_iff in H. destruct H as [H _]. vm_compute in H. discriminate H.
Qed.



Lemma output_field_order_witness :
  Forall (fun k => plainKey k = true) (map fst fooUnion)
  /\ fmap emitted (simplifyType noCoercion fooUnion)
     = fmap specifiedOutput (simplifyTypeHelper noCoercion fooUnion)
  /\ fmap emitted (simplifyType noCoercion fooUnion)
     = Ok [ ("id", JNum 1); ("kind", JStr "AliasedUnion"); ("name", JStr "Foo");
            ("count", JNum 2); ("types", JArr [JNum 2; JNum 3]) ].
Proof.
  assert (Forall (fun k => plainKey k = true) (map fst fooUnion)) as H
      by (repeat constructor).
  split; [exact H|]. split; [|evaluate].
  exact (proj1 (output_field_order noCoercion fooUnion H)).
Defined.

(** A field whose name is an array index is written first; a field whose name
    is a property of [Object.prototype] is not written at all. *)
Lemma index_named_field_is_written_first :
  fmap emitted (simplifyType noCoercion indexNamed)
  = Ok [ ("0", JBool true); ("id", JNum 7); ("kind", JStr "Other") ]
  /\ fmap specifiedOutput (simplifyTypeHelper noCoercion indexNamed)
     = Ok [ ("id", JNum 7); ("kind", JStr "Other"); ("0", JBool true) ]
  /\ fmap emitted (simplifyType noCoercion indexNamed)
     <> fmap specifiedOutput (simplifyTypeHelper noCoercion indexNamed)
  /\ fmap emitted (simplifyType noCoercion prototypeNamed)
     = Ok [ ("id", JNum 7); ("kind", JStr "Other") ]
  /\ fmap specifiedOutput (simplifyTypeHelper noCoercion prototypeNamed)
     = Ok [ ("id", JNum 7); ("kind", JStr "Other"); ("constructor", JNum 3) ].
Proof.
  do 2 (split; [evaluate|]). split; [|split; evaluate].
  intros H. vm_compute in H. discriminate H.
Qed.

Lemma location_resolution_witness :
  isNode (getField destructured "destructuringPattern") = true
  /\ isNode (getField destructured "referenceLocation") = true
  /\ isNode (getField destructured "firstDeclaration") = true
  /\ exists out,
       simplifyType noCoercion destructured = Ok out
       /\ hasField out "location"
            (JObj [ ("path", JStr "a.ts"); ("line", JNum 1); ("char", JNum 2) ])
       /\ lacksField out "destructuringPattern"
       /\ lacksField out "referenceLocation"
       /\ lacksField out "firstDeclaration".
Proof.
  do 3 (split; [evaluate|]).
  eexists. split; [evaluate|].
  destruct (location_resolution noCoercion destructured _
              ltac:(evaluate) ltac:(evaluate) ltac:(evaluate) ltac:(evaluate))
    as [H1 [H2 [H3 [H4 _]]]].
  split; [exact H1|]. split; [exact H2|]. split; [exact H3 | exact H4].
Defined.

Lemma conditional_branch_sentinels_witness :
  noneOf (markersBefore "conditionalCheckType" structuralMarkers) conditional = true
  /\ truthy (getField conditional "conditionalCheckType") = true
  /\ raisesToPrimitive (getField conditional "conditionalTrueType") = false
  /\ raisesToPrimitive (getField conditional "conditionalFalseType") = false
  /\ exists out,
       simplifyType noCoercion conditional = Ok out
       /\ lacksField out "conditionalTrueType"
       /\ hasField out "conditionalFalseType" (JNum 5).
Proof.
  do 4 (split; [evaluate|]).
  destruct (conditional_branch_sentinels noCoercion conditional
              ltac:(evaluate) ltac:(evaluate) ltac:(evaluate) ltac:(evaluate))
    as [out [Hout H]].
  exists out. split; [exact Hout|]. split.
  - apply (H "conditionalTrueType" (-1)%Z); [simpl; auto | evaluate | lia].
  - apply (H "conditionalFalseType" 5%Z); [simpl; auto | evaluate | lia].
Defined.

Lemma parse_fault_drops_the_rest_witness :
  parseOnlyEmptyObject (replaceTrailingBracket (replaceLeadingBracket "{"))
  = inr "Unexpected end of JSON input"%string
  /\ exists es1 es2,
       steps parseOnlyEmptyObject (false, ["[{}"; "{"; "{}]"]%string) (es1 ++ es2) (true, [])
       /\ List.length es1 = 1%nat
       /\ Forall2 isDropped ["{"; "{}]"]%string es2.
Proof.
  split; [evaluate|].
  destruct (parse_fault_drops_the_rest parseOnlyEmptyObject ["[{}"%string] ["{}]"%string] "{"
              "Unexpected end of JSON input" ltac:(evaluate))
    as [[es1 [es2 [H1 [H2 [H3 _]]]]] _].
  exists es1, es2. split; [exact H1|]. split; [exact H2 | exact H3].
Defined.

Lemma implementations_agree_off_reserved_names_witness :
  (getField fooUnion "symbolName" = JUndefined
   \/ exists s, getField fooUnion "symbolName" = JStr s /\ startsWithStr s "__" = false)
  /\ processType noCoercion fooUnion = fmap (fun out => [out]) (simplifyType noCoercion fooUnion).
Proof.
  assert (getField fooUnion "symbolName" = JUndefined
          \/ exists s, getField fooUnion "symbolName" = JStr s /\ startsWithStr s "__" = false)
    as H by (right; exists "Foo"%string; split; evaluate).
  split; [exact H|].
  exact (implementations_agree_off_reserved_names noCoercion fooUnion H).
Defined.

(** * Further facts *)

(** ** Every record, whatever rule classifies it *)

Section EveryRecord.

Variable lt : JsVal -> bool.

Lemma simplifyType_rules (raw out : Obj) :
  simplifyType lt raw = Ok out ->
  exists processed,
    simplifyRules lt (preprocess raw) = Ok processed
    /\ out = normalizePropertyOrder processed.
Proof.
  unfold simplifyType, simplifyTypeHelper.
  destruct (simplifyRules lt (preprocess raw)) as [p|e]; cbn [bind]; [|discriminate].
  intros H. inversion H; subst. exists p. split; reflexivity.
Qed.

Lemma processType_rules (raw out : Obj) :
  processType lt raw = Ok [out] ->
  exists processed,
    processRules lt (preprocess raw) = Ok processed
    /\ out = normalizePropertyOrder processed.
Proof.
  unfold processType, processTypeHelper.
  destruct (processRules lt (preprocess raw)) as [p|e]; cbn [bind]; [|discriminate].
  intros H. inversion H; subst. exists p. split; reflexivity.
Qed.

Lemma memStr_app (k : string) (l1 l2 : list string) :
  memStr k (l1 ++ l2) = memStr k l1 || memStr k l2.
Proof. unfold memStr. apply existsb_app. Qed.

Lemma getField_classified_untouched (raw processed : Obj) (k : string) :
  classifiedFrom (preType (preprocess raw)) processed ->
  memStr k (preNames ++ synthesizedNames) = false ->
  inherited k = false ->
  getField (normalizePropertyOrder processed) k = getField raw k.
Proof.
  intros Hc Hk Hin. rewrite memStr_app in Hk. apply orb_false_elim in Hk.
  destruct Hk as [Hpre Hsyn].
  rewrite getField_normalizePropertyOrder by assumption.
  unfold getField. rewrite (lookup_classified _ _ k Hc Hsyn).
  rewrite lookup_preprocess_other by assumption. reflexivity.
Qed.

(** A field that neither the preprocessing nor any rule names, and that is not
    a property of [Object.prototype], leaves either implementation with the
    value it had on the raw record (absent if it was absent). *)
Theorem unnamed_fields_pass_through (raw : Obj) (k : string) :
  memStr k (preNames ++ synthesizedNames) = false ->
  inherited k = false ->
  (forall out, simplifyType lt raw = Ok out -> getField out k = getField raw k)
  /\ (forall out, processType lt raw = Ok [out] -> getField out k = getField raw k).
Proof.
  intros Hk Hin. split; intros out Hout.
  - destruct (simplifyType_rules _ _ Hout) as [p [Hp ->]].
    apply getField_classified_untouched; try assumption.
    apply simplifyRules_classified with (lt := lt). exact Hp.
  - destruct (processType_rules _ _ Hout) as [p [Hp ->]].
    apply getField_classified_untouched; try assumption.
    apply processRules_classified with (lt := lt). exact Hp.
Qed.

Lemma cleared_not_written (raw processed : Obj) (k : string) :
  classifiedFrom (preType (preprocess raw)) processed ->
  In k [ "symbolName"; "destructuringPattern"; "referenceLocation"; "firstDeclaration";
         "flags"; "recursionId" ] ->
  lacksField (normalizePropertyOrder processed) k.
Proof.
  intros Hc Hk. apply lacksField_iff.
  assert (inherited k = false /\ memStr k synthesizedNames = false) as [Hin Hsyn]
      by (simpl in Hk; repeat destruct Hk as [<-|Hk]; try (split; reflexivity); destruct Hk).
  rewrite getField_normalizePropertyOrder by assumption.
  unfold getField. rewrite (lookup_classified _ _ k Hc Hsyn).
  rewrite getField_preprocess_cleared; [reflexivity|].
  simpl in *. tauto.
Qed.

(** Neither implementation ever writes [symbolName], [flags], [recursionId] or
    one of the three location candidates, whatever rule classified the
    record. *)
Theorem raw_only_fields_are_never_written (raw : Obj) (k : string) :
  In k [ "symbolName"; "destructuringPattern"; "referenceLocation"; "firstDeclaration";
         "flags"; "recursionId" ] ->
  (forall out, simplifyType lt raw = Ok out -> lacksField out k)
  /\ (forall out, processType lt raw = Ok [out] -> lacksField out k).
Proof.
  intros Hk. split; intros out Hout.
  - destruct (simplifyType_rules _ _ Hout) as [p [Hp ->]].
    apply (cleared_not_written raw); [|assumption].
    apply simplifyRules_classified with (lt := lt). exact Hp.
  - destruct (processType_rules _ _ Hout) as [p [Hp ->]].
    apply (cleared_not_written raw); [|assumption].
    apply processRules_classified with (lt := lt). exact Hp.
Qed.

(** *** A field named like a property of [Object.prototype] *)

Lemma inherited_names (k : string) :
  inherited k = true ->
  memStr k leadingNames = false /\ String.eqb "location" k = false
  /\ String.eqb "display" k = false.
Proof.
  unfold inherited, objectPrototypeNames. cbn [existsb].
  rewrite !orb_true_iff, !String.eqb_eq.
  intros H. repeat destruct H as [H|H]; try discriminate H; subst; repeat split.
Qed.

Lemma lookup_copy_loop_inherited (p : Obj) (ks : list string) (res : Obj) (k : string) :
  inherited k = true -> lookup res k = None ->
  lookup (fold_left (copyRemaining p) ks res) k = None.
Proof.
  intros Hin. revert res. induction ks as [|a ks IH]; intros res Hres; simpl; [assumption|].
  apply IH. unfold copyRemaining.
  destruct (isFalsyIn res a && negb (a =? "location") && negb (a =? "display")) eqn:E;
    [|assumption].
  rewrite lookup_setField. destruct (String.eqb a k) eqn:Eak; [|assumption].
  apply String.eqb_eq in Eak. subst a.
  unfold isFalsyIn in E. rewrite Hres, Hin in E. discriminate E.
Qed.

(** The property-order pass copies no field whose name is a property of
    [Object.prototype]: such a field of the raw record is never written. *)
Theorem prototype_named_fields_are_lost (raw : Obj) (k : string) :
  inherited k = true ->
  (forall processed, getField (normalizePropertyOrder processed) k = JUndefined)
  /\ (forall out, simplifyType lt raw = Ok out -> lacksField out k)
  /\ (forall out, processType lt raw = Ok [out] -> lacksField out k).
Proof.
  intros Hin.
  assert (forall processed, getField (normalizePropertyOrder processed) k = JUndefined) as H.
  { intros p. destruct (inherited_names k Hin) as [Hlead [Hloc Hdis]].
    unfold normalizePropertyOrder. rewrite leading_literal.
    unfold getField. rewrite !lookup_setField, Hdis, Hloc.
    rewrite lookup_copy_loop_inherited; [reflexivity | assumption |].
    rewrite lookup_tabulate, Hlead. reflexivity. }
  split; [exact H|]. split; intros out Hout; apply lacksField_iff.
  - destruct (simplifyType_rules _ _ Hout) as [p [_ ->]]. apply H.
  - destruct (processType_rules _ _ Hout) as [p [_ ->]]. apply H.
Qed.

End EveryRecord.

(** ** The kind, and when the rules raise *)

Section KindAndErrors.

Variable lt : JsVal -> bool.

Ltac rule_step :=
  match goal with
  | |- (if ?c then _ else _) = Ok _ -> _ => destruct c eqn:?
  | |- bind ?r _ = Ok _ -> _ => destruct r as [[|]|] eqn:?; cbn [bind]
  | |- Throw _ = Ok _ -> _ => discriminate
  end.

Ltac kind_leaf :=
  eexists; eexists; split; [reflexivity | split; [repeat constructor | simpl; auto 10]].

Lemma makeAnonymous_kindLeads (d : JsVal) (T : Obj) (kind : option string) (out : Obj) :
  makeAnonymous d T kind = Ok out -> kindLeads T out.
Proof.
  unfold makeAnonymous.
  destruct (match kind with
            | Some k => Ok k
            | None => _
            end) as [k|e]; cbn [bind]; [|discriminate].
  intros H. inversion H; subst. kind_leaf.
Qed.

Lemma simplifyRules_kindLeads (p : Pre) (out : Obj) :
  simplifyRules lt p = Ok out -> kindLeads (preType p) out.
Proof.
  unfold simplifyRules. cbv zeta.
  repeat rule_step;
    try (let H := fresh in intros H; inversion H; subst; kind_leaf);
    apply makeAnonymous_kindLeads.
Qed.

Lemma processRules_kindLeads (p : Pre) (out : Obj) :
  processRules lt p = Ok out -> kindLeads (preType p) out.
Proof.
  unfold processRules. cbv zeta.
  repeat rule_step;
    let H := fresh in intros H; inversion H; subst; kind_leaf.
Qed.

Lemma readLiteral_afterKind (T : Obj) (v : JsVal) (items : list LitItem)
      (acc : option JsVal) :
  Forall (afterKind T) items ->
  lookup T "kind" = Some v -> acc = Some v \/ In (Spread T) items ->
  readLiteral "kind" items acc = Some v.
Proof.
  intros Hitems HT. revert acc.
  induction Hitems as [|it items Hit _ IH]; intros acc Hor.
  - destruct Hor as [?|[]]. assumption.
  - destruct it as [k' v'|o]; cbn [readLiteral]; apply IH; unfold afterKind in Hit.
    + rewrite Hit. destruct Hor as [?|[?|?]]; [auto | discriminate | auto].
    + subst o. rewrite HT. auto.
Qed.

Lemma getField_kindLeads (T out : Obj) (v : JsVal) :
  kindLeads T out -> lookup T "kind" = Some v -> getField out "kind" = v.
Proof.
  intros [kind [items [-> [Hitems Hin]]]] HT.
  rewrite getField_objectLiteral. cbn [readLiteral String.eqb Ascii.eqb Bool.eqb andb].
  rewrite (readLiteral_afterKind T v items _ Hitems HT); auto.
Qed.

(** Every rule writes [kind] first and spreads the record after it: when the
    raw record has a field named [kind], its value is the [kind] of the output
    of either implementation, whatever rule matched. *)
Theorem raw_kind_field_is_the_output_kind (raw : Obj) (v : JsVal) :
  lookup raw "kind" = Some v ->
  (forall out, simplifyType lt raw = Ok out -> getField out "kind" = v)
  /\ (forall out, processType lt raw = Ok [out] -> getField out "kind" = v).
Proof.
  intros Hkind.
  assert (lookup (preType (preprocess raw)) "kind" = Some v) as HT
      by (rewrite lookup_preprocess_other by reflexivity; exact Hkind).
  split; intros out Hout.
  - destruct (simplifyType_rules lt _ _ Hout) as [p [Hp ->]].
    rewrite getField_normalizePropertyOrder by reflexivity.
    apply (getField_kindLeads _ _ _ (simplifyRules_kindLeads _ _ Hp) HT).
  - destruct (processType_rules lt _ _ Hout) as [p [Hp ->]].
    rewrite getField_normalizePropertyOrder by reflexivity.
    apply (getField_kindLeads _ _ _ (processRules_kindLeads _ _ Hp) HT).
Qed.

(** *** Rules 1-12 never read [flags] *)

Ltac same_step Hcompare :=
  match goal with
  | |- sameRecord (if ?c then _ else _) _ => destruct c eqn:?
  | |- sameRecord (bind (ltZero ?l ?v) _) _ => destruct (ltZero l v) eqn:?; cbn [bind]
  | |- sameRecord (Ok _) (Ok _) => eexists; split; reflexivity
  | |- sameRecord (Throw _) _ => comparison_raised Hcompare
  end.

Lemma reachesFlagRules_pre (raw : Obj) :
  reachesFlagRules raw =
  noneOf (structuralMarkers ++ ["aliasTypeArguments"]) (preType (preprocess raw))
  && negb (truthy (getField (preType (preprocess raw)) "instantiatedType")
           && truthy (optMember (getField (preType (preprocess raw)) "typeArguments") "length"))
  && negb (preIsDestructuring (preprocess raw)).
Proof.
  unfold reachesFlagRules, noneOf. cbn [app structuralMarkers forallb].
  rewrite !(getField_preprocess_other raw) by reflexivity.
  rewrite preIsDestructuring_preprocess. reflexivity.
Qed.

Lemma rules_agree_before_flags (raw : Obj) :
  reachesFlagRules raw = false ->
  comparisonRaises raw = false ->
  sameRecord (simplifyRules lt (preprocess raw)) (processRules lt (preprocess raw)).
Proof.
  rewrite reachesFlagRules_pre. unfold noneOf. cbn [app structuralMarkers forallb].
  intros H Hcompare. rewrite <- comparisonRaises_preprocess in Hcompare.
  unfold simplifyRules, processRules. cbv zeta.
  repeat same_step Hcompare.
  exfalso. revert H.
  repeat match goal with
         | E : _ = false |- _ => rewrite E; clear E
         end.
  discriminate.
Qed.

Lemma rules_raise_at_comparison (raw : Obj) :
  comparisonRaises raw = true ->
  simplifyRules lt (preprocess raw) = Throw TypeError
  /\ processRules lt (preprocess raw) = Throw TypeError.
Proof.
  unfold comparisonRaises. rewrite !andb_true_iff. intros [[Hnone Hcond] Hraises].
  unfold simplifyRules, processRules. cbv zeta.
  skip_markers Hnone. fire_marker "conditionalCheckType" Hcond.
  rewrite !(getField_preprocess_other raw) by reflexivity.
  destruct (raisesToPrimitive (getField raw "conditionalTrueType")) eqn:Htrue.
  - rewrite (ltZero_raises lt _ Htrue). split; reflexivity.
  - destruct (ltZero_returns lt _ Htrue) as [negative ->]. cbn [bind].
    cbn [orb] in Hraises. rewrite (ltZero_raises lt _ Hraises). split; reflexivity.
Qed.

(** A record that one of rules 1-12 matches is classified by both
    implementations, to the same record, whatever [flags] and [display] are:
    those rules read neither.  The one exception is rule 7, which compares
    its two branches with [0]: when that raises, both implementations raise a
    TypeError. *)
Theorem structural_records_raise_only_at_comparison (raw : Obj) :
  reachesFlagRules raw = false ->
  (comparisonRaises raw = false ->
   exists out, simplifyType lt raw = Ok out /\ processType lt raw = Ok [out])
  /\ (comparisonRaises raw = true ->
      simplifyType lt raw = Throw TypeError /\ processType lt raw = Throw TypeError).
Proof.
  intros H. unfold simplifyType, processType, simplifyTypeHelper, processTypeHelper.
  split; intros Hcompare.
  - destruct (rules_agree_before_flags raw H Hcompare) as [lit [Hs Hp]].
    exists (normalizePropertyOrder lit). rewrite Hs, Hp. split; reflexivity.
  - destruct (rules_raise_at_comparison raw Hcompare) as [Hs Hp].
    rewrite Hs, Hp. split; reflexivity.
Qed.

(** When none of rules 1-12 matches, rule 13 calls [flags.includes]: if
    [flags] is absent, or anything but an array or a string, both
    implementations raise a TypeError. *)
Theorem unsearchable_flags_raise (raw : Obj) :
  reachesFlagRules raw = true ->
  isSearchable (getField raw "flags") = false ->
  simplifyType lt raw = Throw TypeError /\ processType lt raw = Throw TypeError.
Proof.
  rewrite reachesFlagRules_pre. unfold noneOf. cbn [app structuralMarkers forallb].
  rewrite !andb_true_iff, !negb_true_iff.
  intros H Hflags.
  repeat match goal with E : _ /\ _ |- _ => destruct E end.
  assert (includes (preFlags (preprocess raw)) "StringLiteral" = Throw TypeError) as Hinc.
  { rewrite preFlags_preprocess. destruct (getField raw "flags"); try discriminate; reflexivity. }
  unfold simplifyType, processType, simplifyTypeHelper, processTypeHelper,
    simplifyRules, processRules.
  cbv zeta.
  repeat match goal with
         | E : _ = false |- _ => rewrite E; clear E
         end.
  rewrite Hinc. split; reflexivity.
Qed.

End KindAndErrors.

(** ** More rules, one at a time, in both implementations *)

Section MoreRules.

Variable lt : JsVal -> bool.

Lemma truthy_isDefined (v : JsVal) : truthy v = true -> isDefined v = true.
Proof. destruct v; try reflexivity. discriminate. Qed.

Ltac both_engines :=
  unfold simplifyType, processType, simplifyTypeHelper, processTypeHelper,
    simplifyRules, processRules;
  cbv zeta.

Ltac raw_fields raw :=
  rewrite ?(lookup_preprocess_other raw) by reflexivity;
  rewrite ?(getField_preprocess_other raw) by reflexivity.

(** Rule 1 replaces the name: an intrinsic record is written with its
    [intrinsicName] as [name] (whatever [symbolName] was) and without
    [intrinsicName]; its kind is [Intrinsic] unless the raw record has a field
    named [kind]. *)
Theorem intrinsic_name_becomes_name (raw : Obj) :
  truthy (getField raw "intrinsicName") = true ->
  exists out,
    simplifyType lt raw = Ok out /\ processType lt raw = Ok [out]
    /\ hasField out "name" (getField raw "intrinsicName")
    /\ lacksField out "intrinsicName"
    /\ (lookup raw "kind" = None -> hasField out "kind" (JStr "Intrinsic")).
Proof.
  intros Hintrinsic. eexists. both_engines.
  fire_marker "intrinsicName" Hintrinsic. cbn [bind].
  do 2 (split; [reflexivity|]).
  rewrite !hasField_iff, lacksField_iff. through_order. read_literal. raw_fields raw.
  split; [split; [reflexivity | apply truthy_isDefined, Hintrinsic]|].
  split; [reflexivity|].
  intros Hkind. rewrite Hkind. split; reflexivity.
Qed.

(** Rules 2-9, when the comparisons of rule 7 do not raise: both
    implementations return the same record; the marker that selected the rule
    is cleared for [unionTypes], [intersectionTypes], [isTuple],
    [substitutionBaseType] and [reverseMappedSourceType], and kept with its
    raw value for [indexedAccessObjectType], [keyofType] and
    [conditionalCheckType]. *)
Theorem structural_marker_cleared_or_kept (raw : Obj) (marker base : string) :
  In (marker, base) aliasableRules ->
  noneOf (markersBefore marker structuralMarkers) raw = true ->
  truthy (getField raw marker) = true ->
  comparisonRaises raw = false ->
  exists out,
    simplifyType lt raw = Ok out /\ processType lt raw = Ok [out]
    /\ (memStr marker clearedMarkers = true -> lacksField out marker)
    /\ (memStr marker keptMarkers = true -> hasField out marker (getField raw marker)).
Proof.
  intros Hrule Hnone Hmark Hcompare.
  unfold aliasableRules in Hrule. simpl in Hrule.
  repeat (destruct Hrule as [Hrule|Hrule];
          [inversion Hrule; subst marker base; clear Hrule|]);
    [ .. | destruct Hrule ];
    ( try (rewrite (comparisonRaises_fired raw Hnone Hmark) in Hcompare;
           apply orb_false_elim in Hcompare;
           destruct (ltZero_returns lt _ (proj1 Hcompare)) as [trueIsNegative Htrue];
           destruct (ltZero_returns lt _ (proj2 Hcompare)) as [falseIsNegative Hfalse]);
      eexists; both_engines; skip_markers Hnone;
      match goal with
      | H : truthy (getField raw ?k) = true |- _ => fire_marker k H
      end;
      rewrite ?(getField_preprocess_other raw "conditionalTrueType"),
              ?(getField_preprocess_other raw "conditionalFalseType") by reflexivity;
      rewrite ?Htrue, ?Hfalse;
      cbn [bind]; do 2 (split; [reflexivity|]);
      split; intros Hmem; try discriminate Hmem;
      rewrite ?hasField_iff, ?lacksField_iff; through_order; read_literal;
      raw_fields raw;
      first [ reflexivity
            | split; [|apply truthy_isDefined, Hmark];
              unfold getField;
              match goal with
              | |- context [lookup raw ?k] => destruct (lookup raw k)
              end; reflexivity ] ).
Qed.

(** Rules 2 and 3 on a record with no field named [count] or [types]: [types]
    is the member list and [count] its [length], the number of members when
    the list is an array. *)
Theorem member_lists_are_counted (raw : Obj) (marker : string) :
  In marker ["unionTypes"; "intersectionTypes"] ->
  noneOf (markersBefore marker structuralMarkers) raw = true ->
  truthy (getField raw marker) = true ->
  lookup raw "count" = None -> lookup raw "types" = None ->
  exists out,
    simplifyType lt raw = Ok out /\ processType lt raw = Ok [out]
    /\ hasField out "types" (getField raw marker)
    /\ getField out "count" = member (getField raw marker) "length"
    /\ (forall members,
          getField raw marker = JArr members ->
          hasField out "count" (JNum (Z.of_nat (List.length members)))).
Proof.
  intros Hmarker Hnone Hmark Hcount Htypes.
  simpl in Hmarker. destruct Hmarker as [<-|[<-|[]]];
    ( eexists; both_engines; skip_markers Hnone;
      match goal with
      | H : truthy (getField raw ?k) = true |- _ => fire_marker k H
      end;
      cbn [bind]; do 2 (split; [reflexivity|]);
      rewrite !hasField_iff; through_order; read_literal; raw_fields raw;
      rewrite Hcount, Htypes;
      split; [split; [reflexivity | apply truthy_isDefined, Hmark]|];
      split; [reflexivity|];
      intros members Hmembers; rewrite hasField_iff; through_order; read_literal;
      raw_fields raw; rewrite Hcount, Hmembers; split; reflexivity ).
Qed.

(** Rule 8 renames [substitutionBaseType] to [originalType]; a field of the
    raw record that is already named [originalType] is written instead. *)
Theorem substitution_base_is_renamed (raw : Obj) :
  noneOf (markersBefore "substitutionBaseType" structuralMarkers) raw = true ->
  truthy (getField raw "substitutionBaseType") = true ->
  exists out,
    simplifyType lt raw = Ok out /\ processType lt raw = Ok [out]
    /\ lacksField out "substitutionBaseType"
    /\ (lookup raw "originalType" = None ->
        hasField out "originalType" (getField raw "substitutionBaseType"))
    /\ (forall v, lookup raw "originalType" = Some v -> getField out "originalType" = v).
Proof.
  intros Hnone Hmark. eexists. both_engines. skip_markers Hnone.
  fire_marker "substitutionBaseType" Hmark. cbn [bind].
  do 2 (split; [reflexivity|]).
  rewrite hasField_iff, lacksField_iff. through_order. read_literal. raw_fields raw.
  split; [reflexivity|]. split.
  - intros Hnone'. rewrite Hnone'. split; [reflexivity | apply truthy_isDefined, Hmark].
  - intros v Hv. through_order. read_literal. raw_fields raw. rewrite Hv. reflexivity.
Qed.

(** Rule 9 renames the three [reverseMapped...] fields to [sourceType],
    [mappedType] and [constraintType] (on a record that has no field of those
    names) and writes none of the three under its old name. *)
Theorem reverse_mapped_fields_are_renamed (raw : Obj) :
  noneOf (markersBefore "reverseMappedSourceType" structuralMarkers) raw = true ->
  truthy (getField raw "reverseMappedSourceType") = true ->
  lookup raw "sourceType" = None ->
  lookup raw "mappedType" = None ->
  lookup raw "constraintType" = None ->
  exists out,
    simplifyType lt raw = Ok out /\ processType lt raw = Ok [out]
    /\ getField out "sourceType" = getField raw "reverseMappedSourceType"
    /\ getField out "mappedType" = getField raw "reverseMappedMappedType"
    /\ getField out "constraintType" = getField raw "reverseMappedConstraintType"
    /\ lacksField out "reverseMappedSourceType"
    /\ lacksField out "reverseMappedMappedType"
    /\ lacksField out "reverseMappedConstraintType".
Proof.
  intros Hnone Hmark Hs Hm Hc. eexists. both_engines. skip_markers Hnone.
  fire_marker "reverseMappedSourceType" Hmark. cbn [bind].
  do 2 (split; [reflexivity|]).
  rewrite !lacksField_iff. through_order. read_literal. raw_fields raw.
  rewrite Hs, Hm, Hc. repeat split.
Qed.


(** Rule 11: a record with a truthy [instantiatedType] and a [typeArguments]
    of truthy length is a [GenericType] when [instantiatedType === id], and
    then loses [instantiatedType]; otherwise it is a [GenericInstantiation]
    and keeps it.  [typeArguments] is kept either way. *)
Theorem generic_type_or_instantiation (raw : Obj) :
  noneOf (structuralMarkers ++ ["aliasTypeArguments"]) raw = true ->
  truthy (getField raw "instantiatedType") = true ->
  truthy (optMember (getField raw "typeArguments") "length") = true ->
  exists out,
    simplifyType lt raw = Ok out /\ processType lt raw = Ok [out]
    /\ (lookup raw "kind" = None ->
        hasField out "kind"
          (JStr (if strictEquals (getField raw "instantiatedType") (getField raw "id")
                 then "GenericType" else "GenericInstantiation")))
    /\ (strictEquals (getField raw "instantiatedType") (getField raw "id") = true ->
        lacksField out "instantiatedType")
    /\ (strictEquals (getField raw "instantiatedType") (getField raw "id") = false ->
        hasField out "instantiatedType" (getField raw "instantiatedType"))
    /\ getField out "typeArguments" = getField raw "typeArguments".
Proof.
  intros Hnone Hinst Hargs. eexists.
  split; [|split];
    [ both_engines; skip_markers Hnone;
      rewrite (noneOf_preprocess _ _ "aliasTypeArguments" Hnone)
        by first [reflexivity | simpl; tauto];
      rewrite !(getField_preprocess_other raw "instantiatedType"),
        !(getField_preprocess_other raw "typeArguments"),
        !(getField_preprocess_other raw "id") by reflexivity;
      rewrite Hinst, Hargs; cbn [andb bind]; reflexivity .. |].
  rewrite !hasField_iff, lacksField_iff. through_order. read_literal. raw_fields raw.
  split; [intros Hkind; rewrite Hkind;
          destruct (strictEquals (getField raw "instantiatedType") (getField raw "id"));
          split; reflexivity|].
  split; [intros ->; reflexivity|].
  split; [intros ->; split; [reflexivity | apply truthy_isDefined, Hinst]|].
  unfold getField. destruct (lookup raw "typeArguments"); reflexivity.
Qed.

End MoreRules.

(** ** Flags, names and [display] *)

Section FlagsAndNames.

Variable lt : JsVal -> bool.

Ltac both_engines :=
  unfold simplifyType, processType, simplifyTypeHelper, processTypeHelper,
    simplifyRules, processRules;
  cbv zeta.

Ltac raw_fields raw :=
  rewrite ?(lookup_preprocess_other raw) by reflexivity;
  rewrite ?(getField_preprocess_other raw) by reflexivity.



(** *** Where [display] survives *)

Ltac display_step :=
  match goal with
  | |- (if ?c then _ else _) = Ok _ -> _ =>
      match c with
      | context [strictEquals ?x (JStr ?t)] =>
          destruct (strictEquals x (JStr t)) eqn:?; cbn [orb]
      end
  | |- (if ?c then _ else _) = Ok _ -> _ => destruct c eqn:?
  | |- bind ?r _ = Ok _ -> _ => destruct r as [[|]|] eqn:?; cbn [bind]
  | |- Throw _ = Ok _ -> _ => discriminate
  end.

Ltac name_the_anonymous :=
  erewrite makeAnonymous_named;
  [ | | apply strictEquals_JStr; eassumption ];
  [ | simpl; eauto 10 ].

Ltac display_leaf Hdisplay Hkind :=
  let H := fresh in
  intros H; inversion H; subst; clear H;
  read_literal; rewrite ?Hdisplay, ?Hkind;
  repeat match goal with
         | |- context [if ?c then _ else _] => destruct c
         end;
  first [ left; reflexivity
        | right; split; [reflexivity | eexists; split; reflexivity] ].

Lemma simplifyRules_display (p : Pre) (out : Obj) :
  lookup (preType p) "display" = Some JUndefined ->
  lookup (preType p) "kind" = None ->
  simplifyRules lt p = Ok out ->
  displayFrom displayKinds (preDisplay p) out.
Proof.
  intros Hdisplay Hkind. unfold simplifyRules, displayFrom. cbv zeta.
  repeat display_step;
    try name_the_anonymous;
    unfold makeAnonymous; cbn [bind];
    display_leaf Hdisplay Hkind.
Qed.

Lemma processRules_display (p : Pre) (out : Obj) :
  lookup (preType p) "display" = Some JUndefined ->
  lookup (preType p) "kind" = None ->
  processRules lt p = Ok out ->
  displayFrom processDisplayKinds (preDisplay p) out.
Proof.
  intros Hdisplay Hkind. unfold processRules, displayFrom. cbv zeta.
  repeat display_step; display_leaf Hdisplay Hkind.
Qed.

Lemma displayFrom_written (kinds : list string) (d v : JsVal) (processed : Obj) :
  displayFrom kinds d processed ->
  hasField (normalizePropertyOrder processed) "display" v ->
  v = d /\ exists kind,
             hasField (normalizePropertyOrder processed) "kind" (JStr kind)
             /\ In kind kinds.
Proof.
  intros Hfrom Hhas. apply hasField_iff in Hhas. destruct Hhas as [Hv Hdef].
  rewrite getField_normalizePropertyOrder in Hv by reflexivity.
  destruct Hfrom as [Hnone|[Hd [kind [Hkind Hmem]]]].
  - rewrite Hnone in Hv. subst v. discriminate Hdef.
  - split; [congruence|]. exists kind. split; [|apply memStr_In, Hmem].
    apply hasField_iff. rewrite getField_normalizePropertyOrder by reflexivity. auto.
Qed.

(** [display] is cleared before the rules run and only some rules put it
    back.  When a record with no field named [kind] is written with a
    [display], it is the raw [display] and the kind is one of the anonymous
    kinds, [JsxAttributesType], [JsxElementSignature] or [Other] in
    src/simplify.ts, and one of [AnonymousType], [AnonymousObject],
    [JsxElementSignature] or [Other] in src/index.ts: every structural, generic,
    literal, known-symbol and [Object] record loses its [display]. *)
Theorem display_survives_only_in_some_kinds (raw : Obj) (v : JsVal) :
  lookup raw "kind" = None ->
  (forall out,
      simplifyType lt raw = Ok out -> hasField out "display" v ->
      v = getField raw "display"
      /\ exists kind, hasField out "kind" (JStr kind) /\ In kind displayKinds)
  /\ (forall out,
        processType lt raw = Ok [out] -> hasField out "display" v ->
        v = getField raw "display"
        /\ exists kind, hasField out "kind" (JStr kind) /\ In kind processDisplayKinds).
Proof.
  intros Hkind.
  assert (lookup (preType (preprocess raw)) "display" = Some JUndefined) as Hd
      by (apply getField_preprocess_cleared; simpl; tauto).
  assert (lookup (preType (preprocess raw)) "kind" = None) as Hk
      by (rewrite lookup_preprocess_other by reflexivity; exact Hkind).
  rewrite <- (preDisplay_preprocess raw).
  split; intros out Hout Hhas.
  - destruct (simplifyType_rules lt _ _ Hout) as [p [Hp ->]].
    apply (displayFrom_written _ _ _ _ (simplifyRules_display _ _ Hd Hk Hp) Hhas).
  - destruct (processType_rules lt _ _ Hout) as [p [Hp ->]].
    apply (displayFrom_written _ _ _ _ (processRules_display _ _ Hd Hk Hp) Hhas).
Qed.

End FlagsAndNames.

(** ** Known symbols and JSX attributes (src/simplify.ts only) *)

Lemma startsWithStr_split (s p : string) :
  startsWithStr s p = true -> s = (p ++ dropStr (String.length p) s)%string.
Proof.
  revert s. induction p as [|c p IH]; intros s; simpl.
  - destruct s; reflexivity.
  - destruct s as [|d s]; [discriminate|].
    rewrite andb_true_iff, Ascii.eqb_eq. intros [-> H]. simpl.
    f_equal. apply IH, H.
Qed.

Lemma startsWithStr_append (p s : string) : startsWithStr (p ++ s)%string p = true.
Proof.
  induction p as [|c p IH]; simpl; [reflexivity|].
  rewrite Ascii.eqb_refl. exact IH.
Qed.

Lemma dropStr_append (p s : string) : dropStr (String.length p) (p ++ s)%string = s.
Proof.
  induction p as [|c p IH]; simpl; [destruct s; reflexivity | exact IH].
Qed.

Lemma spanNotAt_spec (s label tail : string) :
  spanNotAt s = (label, tail) ->
  s = (label ++ tail)%string /\ noAt label = true
  /\ (tail = EmptyString \/ exists rest, tail = String "@"%char rest).
Proof.
  revert label tail. induction s as [|c s IH]; intros label tail; simpl.
  - intros H. inversion H; subst. auto.
  - destruct (Ascii.eqb c "@"%char) eqn:E.
    + apply Ascii.eqb_eq in E. subst c. intros H. inversion H; subst.
      repeat split. right. eexists. reflexivity.
    + destruct (spanNotAt s) as [l t]. intros H. inversion H; subst.
      destruct (IH l tail eq_refl) as [-> [Hl Ht]].
      simpl. rewrite E, Hl. auto.
Qed.

Lemma spanNotAt_label (label rest : string) :
  noAt label = true ->
  spanNotAt (label ++ String "@"%char rest)%string = (label, String "@"%char rest).
Proof.
  induction label as [|c label IH]; simpl.
  - reflexivity.
  - rewrite andb_true_iff, negb_true_iff. intros [Hc Hl].
    rewrite Hc, (IH Hl). reflexivity.
Qed.

Lemma execKnownSymbol_sound (name label : string) :
  execKnownSymbol name = Some label ->
  isLabel label = true
  /\ exists digits,
       isDigits digits = true
       /\ name = ("__@" ++ label ++ "@" ++ digits)%string.
Proof.
  unfold execKnownSymbol, isLabel, isDigits.
  destruct (startsWithStr name "__@") eqn:Hstart; [|discriminate].
  apply startsWithStr_split in Hstart. cbn [String.length] in Hstart.
  destruct (spanNotAt (dropStr 3 name)) as [l tail] eqn:Hspan.
  apply spanNotAt_spec in Hspan. destruct Hspan as [Hrest [Hl Htail]].
  destruct l as [|c l]; [discriminate|].
  destruct tail as [|a [|d digits]]; try discriminate.
  destruct (allDigits (String d digits)) eqn:Hdigits; [|discriminate].
  intros H. inversion H; subst label. clear H.
  split; [rewrite Hl; reflexivity|].
  exists (String d digits). split; [rewrite Hdigits; reflexivity|].
  rewrite Hstart at 1. rewrite Hrest. f_equal.
  destruct Htail as [Htail|[rest Htail]]; [discriminate Htail|].
  inversion Htail; subst. reflexivity.
Qed.

Lemma execKnownSymbol_complete (label digits : string) :
  isLabel label = true ->
  isDigits digits = true ->
  execKnownSymbol ("__@" ++ label ++ "@" ++ digits) = Some label.
Proof.
  unfold execKnownSymbol, isLabel, isDigits. intros Hlabel Hdigits.
  apply andb_true_iff in Hlabel, Hdigits.
  destruct Hlabel as [Hne Hno]. destruct Hdigits as [Hdne Hall].
  rewrite (startsWithStr_append "__@").
  rewrite (dropStr_append "__@"). cbn [append].
  change (label ++ String "@" digits)%string
    with (label ++ String "@"%char digits)%string.
  rewrite (spanNotAt_label _ _ Hno).
  destruct label as [|c label]; [discriminate Hne|].
  destruct digits as [|d digits]; [discriminate Hdne|].
  rewrite Hall. reflexivity.
Qed.

(** The pattern of rule 18, [/^__@([^@]+)@\d+$/]: it matches exactly the
    names [__@label@digits] with a non-empty [label] free of [@] and at least
    one digit, and then captures [label]. *)
Theorem execKnownSymbol_spec (name label : string) :
  execKnownSymbol name = Some label <->
  isLabel label = true
  /\ exists digits,
       isDigits digits = true
       /\ name = ("__@" ++ label ++ "@" ++ digits)%string.
Proof.
  split.
  - apply execKnownSymbol_sound.
  - intros [Hlabel [digits [Hdigits ->]]]. apply execKnownSymbol_complete; assumption.
Qed.

Section NameRules.

Variable lt : JsVal -> bool.

Ltac skip_to_name_rules H :=
  let Hnone := fresh "Hnone" in
  let Hgen := fresh "Hgen" in
  let Hdes := fresh "Hdes" in
  let Hflags := fresh "Hflags" in
  destruct (reachesNameRules_spec _ H) as [Hnone [Hgen [Hdes Hflags]]];
  skip_markers Hnone;
  rewrite ?(noneOf_preprocess _ _ "aliasTypeArguments" Hnone)
    by first [reflexivity | simpl; tauto];
  rewrite ?(getField_preprocess_other _ "instantiatedType"),
          ?(getField_preprocess_other _ "typeArguments") by reflexivity;
  rewrite ?Hgen;
  rewrite ?preIsDestructuring_preprocess, ?Hdes;
  rewrite ?preFlags_preprocess;
  rewrite ?(Hflags "StringLiteral"), ?(Hflags "NumberLiteral"), ?(Hflags "BigIntLiteral"),
          ?(Hflags "TypeParameter"), ?(Hflags "UniqueESSymbol") by (simpl; tauto);
  cbn [bind].

(** Rule 18 of src/simplify.ts: a record that reaches the name rules with a
    [symbolName] starting with [__@] is a [KnownSymbol]; its name becomes the
    label when the name is [__@label@digits], and stays as it is when the
    pattern does not match. *)
Theorem known_symbol_name_is_its_label (raw : Obj) (name : string) :
  reachesNameRules raw = true ->
  getField raw "symbolName" = JStr name ->
  startsWithStr name "__@" = true ->
  exists out,
    simplifyType lt raw = Ok out
    /\ (lookup raw "kind" = None -> hasField out "kind" (JStr "KnownSymbol"))
    /\ (forall label digits,
          isLabel label = true -> isDigits digits = true ->
          name = ("__@" ++ label ++ "@" ++ digits)%string ->
          hasField out "name" (JStr label))
    /\ (execKnownSymbol name = None -> hasField out "name" (JStr name)).
Proof.
  intros Hreach Hname Hstart. eexists. split.
  - unfold simplifyType, simplifyTypeHelper, simplifyRules. cbv zeta.
    skip_to_name_rules Hreach.
    rewrite !getField_preprocess_name, Hname. cbn [optStartsWith startsWith].
    rewrite Hstart. cbn [bind]. reflexivity.
  - split; [|split].
    + intros Hkind. apply hasField_iff. split; [|reflexivity].
      through_order. read_literal.
      rewrite lookup_preprocess_other by reflexivity. rewrite Hkind. reflexivity.
    + intros label digits Hlabel Hdigits Hshape. apply hasField_iff. split; [|reflexivity].
      through_order. read_literal.
      assert (execKnownSymbol name = Some label) as ->; [|reflexivity].
      rewrite Hshape. apply execKnownSymbol_complete; assumption.
    + intros Hnone. apply hasField_iff. split; [|reflexivity].
      through_order. read_literal. rewrite Hnone. reflexivity.
Qed.

(** Rule 20 of src/simplify.ts: the name [__jsxAttributes] gives the kind
    [JsxAttributesType]; the name is not written, and the raw [display] is
    written only when [location] is not truthy. *)
Theorem jsx_attributes_lose_their_name (raw : Obj) :
  reachesNameRules raw = true ->
  getField raw "symbolName" = JStr "__jsxAttributes" ->
  exists out,
    simplifyType lt raw = Ok out
    /\ (lookup raw "kind" = None -> hasField out "kind" (JStr "JsxAttributesType"))
    /\ lacksField out "name"
    /\ getField out "display" =
         (if truthy (getField out "location") then JUndefined else getField raw "display").
Proof.
  intros Hreach Hname. eexists. split.
  - unfold simplifyType, simplifyTypeHelper, simplifyRules. cbv zeta.
    skip_to_name_rules Hreach.
    rewrite preDisplay_preprocess, !getField_preprocess_name, Hname.
    reflexivity.
  - split; [|split].
    + intros Hkind. apply hasField_iff. split; [|reflexivity].
      through_order. read_literal.
      rewrite lookup_preprocess_other by reflexivity. rewrite Hkind. reflexivity.
    + apply lacksField_iff. through_order. read_literal. reflexivity.
    + through_order. read_literal.
      unfold getField at 1.
      destruct (lookup (preType (preprocess raw)) "location"); reflexivity.
Qed.

End NameRules.

(** ** Line mode and the output stage *)

(** [replace(/^\[/, "")] and [replace(/\]$/, "")]: a chunk loses one opening
    bracket at its start and one closing bracket at its end when it has them,
    and nothing else. *)
Theorem brackets_are_removed_once :
  (forall s, replaceLeadingBracket ("[" ++ s)%string = s)
  /\ (forall s, replaceTrailingBracket (s ++ "]")%string = s)
  /\ (forall s, cleaned ("[" ++ s ++ "]")%string = s)
  /\ (forall s, replaceLeadingBracket s = s
                \/ s = ("[" ++ replaceLeadingBracket s)%string)
  /\ (forall s, replaceTrailingBracket s = s
                \/ s = (replaceTrailingBracket s ++ "]")%string).
Proof.
  assert (forall s, replaceTrailingBracket (s ++ "]")%string = s) as Htrail.
  { induction s as [|c s IH]; [reflexivity|].
    cbn [append replaceTrailingBracket]. rewrite IH.
    destruct s; reflexivity. }
  split; [reflexivity|]. split; [exact Htrail|]. split; [intros s; apply Htrail|].
  split.
  - intros [|c s]; [left; reflexivity|]. cbn [replaceLeadingBracket].
    destruct (Ascii.eqb c "["%char) eqn:E; [|left; reflexivity].
    apply Ascii.eqb_eq in E. subst. right. reflexivity.
  - induction s as [|c s IH]; [left; reflexivity|].
    cbn [replaceTrailingBracket]. destruct s as [|d s].
    + destruct (Ascii.eqb c "]"%char) eqn:E; [|left; reflexivity].
      apply Ascii.eqb_eq in E. subst. right. reflexivity.
    + destruct IH as [IH|IH].
      * left. rewrite IH. reflexivity.
      * right. cbn [append]. rewrite <- IH. reflexivity.
Qed.

Section LineModeRuns.

Variable JSON_parse : string -> JsVal + string.

Lemma pushedValues_after_error (chunks : list string) :
  pushedValues (snd (runLines JSON_parse true chunks)) = []
  /\ fst (runLines JSON_parse true chunks) = true.
Proof.
  induction chunks as [|chunk rest [IH1 IH2]]; [split; reflexivity|].
  cbn [runLines]. rewrite transform_after_error.
  destruct (runLines JSON_parse true rest) as [final es]. cbn [fst snd] in *.
  split; [|exact IH2]. unfold pushedValues in *. cbn [flat_map pushed app]. exact IH1.
Qed.

Lemma runLines_from_start (chunks : list string) :
  pushedValues (snd (runLines JSON_parse false chunks)) = parsedPrefix JSON_parse chunks
  /\ fst (runLines JSON_parse false chunks) = negb (forallb (parses JSON_parse) chunks).
Proof.
  induction chunks as [|chunk rest [IH1 IH2]]; [split; reflexivity|].
  cbn [runLines parsedPrefix forallb]. unfold transform, parses at 1. cbn [negb].
  fold (cleaned chunk).
  destruct (JSON_parse (cleaned chunk)) as [obj|message].
  - destruct (runLines JSON_parse false rest) as [final es]. cbn [fst snd] in *.
    unfold pushedValues in *. cbn [flat_map pushed app].
    rewrite IH1. split; [reflexivity | exact IH2].
  - destruct (pushedValues_after_error rest) as [Hnone Hflag].
    destruct (runLines JSON_parse true rest) as [final es]. cbn [fst snd] in *.
    unfold pushedValues in *. cbn [flat_map pushed app].
    split; [exact Hnone | exact Hflag].
Qed.

Lemma forwardedValues_pushed (es : list Emission) :
  forwardedValues es = filter isForwarded (pushedValues es).
Proof.
  unfold forwardedValues, pushedValues.
  induction es as [|e es IH]; [reflexivity|]. cbn [flat_map].
  rewrite filter_app, IH. f_equal.
  destruct (pushed e) as [obj|]; [|reflexivity].
  cbn [filter]. destruct (isForwarded obj); reflexivity.
Qed.

(** A run of the line transform hands to [callback] exactly the values of the
    chunks before the first one that does not parse, in order, and of these
    the ones that are not [null] reach the next stage: a line [null] parses
    and gives no record.  The run ends with [sawError] set exactly when some
    chunk does not parse; when every chunk parses, one value per chunk is
    handed to [callback] and nothing is logged. *)
Theorem line_mode_hands_on_the_parsed_prefix (chunks : list string) :
  pushedValues (snd (runLines JSON_parse false chunks)) = parsedPrefix JSON_parse chunks
  /\ forwardedValues (snd (runLines JSON_parse false chunks))
     = filter isForwarded (parsedPrefix JSON_parse chunks)
  /\ fst (runLines JSON_parse false chunks) = negb (forallb (parses JSON_parse) chunks)
  /\ (forallb (parses JSON_parse) chunks = true ->
      List.length (parsedPrefix JSON_parse chunks) = List.length chunks
      /\ Forall (fun e => logged e = []) (snd (runLines JSON_parse false chunks))).
Proof.
  destruct (runLines_from_start chunks) as [Hvalues Hflag].
  split; [exact Hvalues|].
  split; [rewrite forwardedValues_pushed, Hvalues; reflexivity|].
  split; [exact Hflag|]. clear Hvalues Hflag.
  induction chunks as [|chunk rest IH]; [intros _; split; [reflexivity | constructor]|].
  cbn [runLines parsedPrefix forallb]. unfold transform, parses at 1. cbn [negb].
  fold (cleaned chunk).
  destruct (JSON_parse (cleaned chunk)) as [obj|message]; [|discriminate].
  cbn [andb]. intros Hall. destruct (IH Hall) as [Hlen Hlog].
  destruct (runLines JSON_parse false rest) as [final es]. cbn [fst snd] in *.
  split; [cbn [List.length]; rewrite Hlen; reflexivity|].
  constructor; [reflexivity | assumption].
Qed.

Lemma parsedPrefix_fault (before after : list string) (chunk message : string) :
  JSON_parse (cleaned chunk) = inr message ->
  parsedPrefix JSON_parse (before ++ chunk :: after) = parsedPrefix JSON_parse before.
Proof.
  intros H. induction before as [|b before IH]; cbn [app parsedPrefix].
  - rewrite H. reflexivity.
  - destruct (JSON_parse (cleaned b)); [rewrite IH|]; reflexivity.
Qed.

(** The empty string is not JSON, so a chunk that is only [[], []] or [[]],
    or is empty, is a parse fault: nothing of it or of any later chunk is
    handed on. *)
Theorem bare_bracket_chunk_ends_the_output
        (before after : list string) (chunk message : string) :
  JSON_parse "" = inr message ->
  In chunk [ "["; "]"; "[]"; "" ]%string ->
  pushedValues (snd (runLines JSON_parse false (before ++ chunk :: after)))
  = parsedPrefix JSON_parse before
  /\ fst (runLines JSON_parse false (before ++ chunk :: after)) = true.
Proof.
  intros Hempty Hchunk.
  assert (JSON_parse (cleaned chunk) = inr message) as Hfault
      by (simpl in Hchunk; repeat destruct Hchunk as [<-|Hchunk];
          try exact Hempty; destruct Hchunk).
  destruct (runLines_from_start (before ++ chunk :: after)) as [H1 H2].
  rewrite H1, H2, (parsedPrefix_fault _ _ _ _ Hfault). split; [reflexivity|].
  rewrite forallb_app. cbn [forallb]. unfold parses at 2. rewrite Hfault.
  rewrite andb_false_r. reflexivity.
Qed.

End LineModeRuns.

Section OutputStageFacts.

Variable Chunk : Type.
Variable JSON_stringify : Chunk -> string.

Lemma append_assoc' (a b c : string) : ((a ++ b) ++ c = a ++ (b ++ c))%string.
Proof. induction a as [|x a IH]; simpl; [reflexivity | rewrite IH; reflexivity]. Qed.

Lemma append_empty (a : string) : (a ++ "" = a)%string.
Proof. induction a as [|x a IH]; simpl; [reflexivity | rewrite IH; reflexivity]. Qed.

Lemma concat_empty_cons (x : string) (xs : list string) :
  String.concat "" (x :: xs) = (x ++ String.concat "" xs)%string.
Proof. destruct xs; simpl; [rewrite append_empty|]; reflexivity. Qed.

Lemma written_rest (chunks : list Chunk) :
  String.concat "" (writeChunks Chunk JSON_stringify false chunks)
  = (String.concat ""
       (map (fun chunk => ("," ++ newline ++ JSON_stringify chunk)%string) chunks)
     ++ "]")%string.
Proof.
  induction chunks as [|chunk rest IH]; [reflexivity|].
  cbn [writeChunks writeChunk map app]. rewrite !concat_empty_cons, IH.
  rewrite !append_assoc'. reflexivity.
Qed.

Lemma concat_separated (sep x : string) (xs : list string) :
  String.concat sep (x :: xs)
  = (x ++ String.concat "" (map (fun y => (sep ++ y)%string) xs))%string.
Proof.
  revert x. induction xs as [|y ys IH]; intros x.
  - simpl. rewrite append_empty. reflexivity.
  - change (String.concat sep (x :: y :: ys))
      with (x ++ sep ++ String.concat sep (y :: ys))%string.
    rewrite IH. cbn [map]. rewrite concat_empty_cons, append_assoc'. reflexivity.
Qed.

(** The output stage writes [[], the records joined by a comma and a line
    feed, and []]; when no record reaches it, it writes only the closing
    bracket. *)
Theorem written_is_a_bracketed_list :
  written Chunk JSON_stringify [] = "]"%string
  /\ forall chunk rest,
       written Chunk JSON_stringify (chunk :: rest)
       = ("[" ++ String.concat ("," ++ newline) (map JSON_stringify (chunk :: rest))
          ++ "]")%string.
Proof.
  split; [reflexivity|]. intros chunk rest. unfold written.
  cbn [writeChunks writeChunk app]. rewrite !concat_empty_cons, written_rest.
  cbn [map]. rewrite concat_separated, map_map, !append_assoc'.
  reflexivity.
Qed.

End OutputStageFacts.

(** ** The last rules and the location, for every input *)

Section LastRules.

Variable lt : JsVal -> bool.




(** The location of every record, whatever its candidates are: with [node]
    the first of [destructuringPattern], [referenceLocation] and
    [firstDeclaration] that is neither absent nor null, both implementations
    write [{path, line, char}] read off [node] when [node] is truthy, and
    [node] itself when it is not (nothing when there is no candidate; [0],
    [false] or the empty string when that is the first candidate). *)
Theorem location_of_any_record (raw out : Obj) :
  simplifyType lt raw = Ok out \/ processType lt raw = Ok [out] ->
  getField out "location" =
  (let node := coalesce (coalesce (getField raw "destructuringPattern")
                                  (getField raw "referenceLocation"))
                        (getField raw "firstDeclaration") in
   if truthy node then locationOf node else node).
Proof.
  intros Hout.
  assert (exists p, out = normalizePropertyOrder p
                    /\ classifiedFrom (preType (preprocess raw)) p) as [p [-> Hc]].
  { destruct Hout as [Hout|Hout].
    - destruct (simplifyType_rules lt _ _ Hout) as [p [Hp ->]]. exists p.
      split; [reflexivity | apply simplifyRules_classified with (lt := lt); exact Hp].
    - destruct (processType_rules lt _ _ Hout) as [p [Hp ->]]. exists p.
      split; [reflexivity | apply processRules_classified with (lt := lt); exact Hp]. }
  through_order. unfold getField at 1.
  rewrite (lookup_classified _ _ "location" Hc) by reflexivity.
  rewrite getField_preprocess_location. reflexivity.
Qed.

End LastRules.

(** * The further facts at the worked records *)

Lemma unnamed_fields_pass_through_witness :
  memStr "id" (preNames ++ synthesizedNames) = false
  /\ inherited "id" = false
  /\ exists out, simplifyType noCoercion fooUnion = Ok out /\ getField out "id" = JNum 1.
Proof.
  do 2 (split; [evaluate|]). eexists. split; [evaluate|].
  apply (proj1 (unnamed_fields_pass_through noCoercion fooUnion "id"
                  ltac:(evaluate) ltac:(evaluate))).
  evaluate.
Defined.

Lemma raw_only_fields_are_never_written_witness :
  In "flags" [ "symbolName"; "destructuringPattern"; "referenceLocation";
               "firstDeclaration"; "flags"; "recursionId" ]%string
  /\ exists out, processType noCoercion fooUnion = Ok [out] /\ lacksField out "flags".
Proof.
  assert (In "flags" [ "symbolName"; "destructuringPattern"; "referenceLocation";
                       "firstDeclaration"; "flags"; "recursionId" ]%string) as H
      by (simpl; tauto).
  split; [exact H|]. eexists. split; [evaluate|].
  apply (proj2 (raw_only_fields_are_never_written noCoercion fooUnion "flags" H)).
  evaluate.
Defined.

Lemma prototype_named_fields_are_lost_witness :
  inherited "constructor" = true
  /\ getField prototypeNamed "constructor" = JNum 3
  /\ exists out,
       simplifyType noCoercion prototypeNamed = Ok out /\ lacksField out "constructor".
Proof.
  do 2 (split; [evaluate|]). eexists. split; [evaluate|].
  destruct (prototype_named_fields_are_lost noCoercion prototypeNamed "constructor"
              ltac:(evaluate)) as [_ [H _]].
  apply H. evaluate.
Defined.

Lemma raw_kind_field_is_the_output_kind_witness :
  lookup anyIntrinsicWithKind "kind" = Some (JStr "Object")
  /\ exists out,
       simplifyType noCoercion anyIntrinsicWithKind = Ok out
       /\ getField out "kind" = JStr "Object".
Proof.
  split; [evaluate|]. eexists. split; [evaluate|].
  apply (proj1 (raw_kind_field_is_the_output_kind noCoercion anyIntrinsicWithKind
                  (JStr "Object") ltac:(evaluate))).
  evaluate.
Defined.

Lemma structural_records_raise_only_at_comparison_witness :
  reachesFlagRules unionWithoutFlags = false
  /\ getField unionWithoutFlags "flags" = JUndefined
  /\ (exists out,
        simplifyType noCoercion unionWithoutFlags = Ok out
        /\ processType noCoercion unionWithoutFlags = Ok [out])
  /\ reachesFlagRules conditionalWithToString = false
  /\ simplifyType noCoercion conditionalWithToString = Throw TypeError
  /\ processType noCoercion conditionalWithToString = Throw TypeError.
Proof.
  do 2 (split; [evaluate|]).
  split;
    [exact (proj1 (structural_records_raise_only_at_comparison noCoercion unionWithoutFlags
                     ltac:(evaluate))
                  ltac:(evaluate))|].
  split; [evaluate|].
  exact (proj2 (structural_records_raise_only_at_comparison noCoercion conditionalWithToString
                  ltac:(evaluate))
               ltac:(evaluate)).
Defined.

Lemma unsearchable_flags_raise_witness :
  reachesFlagRules onlyId = true
  /\ isSearchable (getField onlyId "flags") = false
  /\ simplifyType noCoercion onlyId = Throw TypeError
  /\ processType noCoercion onlyId = Throw TypeError.
Proof.
  do 2 (split; [evaluate|]).
  exact (unsearchable_flags_raise noCoercion onlyId ltac:(evaluate) ltac:(evaluate)).
Defined.

Lemma intrinsic_name_becomes_name_witness :
  truthy (getField anyIntrinsic "intrinsicName") = true
  /\ exists out,
       simplifyType noCoercion anyIntrinsic = Ok out
       /\ processType noCoercion anyIntrinsic = Ok [out]
       /\ hasField out "name" (JStr "any")
       /\ lacksField out "intrinsicName".
Proof.
  split; [evaluate|].
  destruct (intrinsic_name_becomes_name noCoercion anyIntrinsic ltac:(evaluate))
    as [out [H1 [H2 [H3 [H4 _]]]]].
  exists out. split; [exact H1|]. split; [exact H2|]. split; [exact H3 | exact H4].
Defined.

Lemma structural_marker_cleared_or_kept_witness :
  In ("conditionalCheckType", "ConditionalType") aliasableRules
  /\ noneOf (markersBefore "conditionalCheckType" structuralMarkers) conditional = true
  /\ truthy (getField conditional "conditionalCheckType") = true
  /\ comparisonRaises conditional = false
  /\ exists out,
       simplifyType noCoercion conditional = Ok out
       /\ processType noCoercion conditional = Ok [out]
       /\ hasField out "conditionalCheckType" (JNum 6).
Proof.
  assert (In ("conditionalCheckType", "ConditionalType") aliasableRules) as Hin
      by (simpl; tauto).
  split; [exact Hin|]. do 3 (split; [evaluate|]).
  destruct (structural_marker_cleared_or_kept noCoercion conditional
              "conditionalCheckType" "ConditionalType" Hin ltac:(evaluate) ltac:(evaluate)
              ltac:(evaluate))
    as [out [H1 [H2 [_ H3]]]].
  exists out. split; [exact H1|]. split; [exact H2|]. apply H3. evaluate.
Defined.

Lemma member_lists_are_counted_witness :
  In "intersectionTypes" ["unionTypes"; "intersectionTypes"]%string
  /\ noneOf (markersBefore "intersectionTypes" structuralMarkers) barIntersection = true
  /\ truthy (getField barIntersection "intersectionTypes") = true
  /\ lookup barIntersection "count" = None
  /\ lookup barIntersection "types" = None
  /\ exists out,
       simplifyType noCoercion barIntersection = Ok out
       /\ processType noCoercion barIntersection = Ok [out]
       /\ hasField out "types" (JArr [JNum 4; JNum 5; JNum 6])
       /\ hasField out "count" (JNum 3).
Proof.
  assert (In "intersectionTypes" ["unionTypes"; "intersectionTypes"]%string) as Hin
      by (simpl; tauto).
  split; [exact Hin|]. do 4 (split; [evaluate|]).
  destruct (member_lists_are_counted noCoercion barIntersection "intersectionTypes" Hin
              ltac:(evaluate) ltac:(evaluate) ltac:(evaluate) ltac:(evaluate))
    as [out [H1 [H2 [H3 [_ H4]]]]].
  exists out. split; [exact H1|]. split; [exact H2|]. split; [exact H3|].
  apply (H4 [JNum 4; JNum 5; JNum 6]). evaluate.
Defined.

Lemma substitution_base_is_renamed_witness :
  noneOf (markersBefore "substitutionBaseType" structuralMarkers) substituted = true
  /\ truthy (getField substituted "substitutionBaseType") = true
  /\ exists out,
       simplifyType noCoercion substituted = Ok out
       /\ processType noCoercion substituted = Ok [out]
       /\ lacksField out "substitutionBaseType"
       /\ hasField out "originalType" (JNum 4).
Proof.
  do 2 (split; [evaluate|]).
  destruct (substitution_base_is_renamed noCoercion substituted
              ltac:(evaluate) ltac:(evaluate))
    as [out [H1 [H2 [H3 [H4 _]]]]].
  exists out. split; [exact H1|]. split; [exact H2|]. split; [exact H3|].
  apply H4. evaluate.
Defined.

Lemma reverse_mapped_fields_are_renamed_witness :
  noneOf (markersBefore "reverseMappedSourceType" structuralMarkers) reverseMapped = true
  /\ truthy (getField reverseMapped "reverseMappedSourceType") = true
  /\ lookup reverseMapped "sourceType" = None
  /\ lookup reverseMapped "mappedType" = None
  /\ lookup reverseMapped "constraintType" = None
  /\ exists out,
       simplifyType noCoercion reverseMapped = Ok out
       /\ processType noCoercion reverseMapped = Ok [out]
       /\ getField out "sourceType" = JNum 4
       /\ getField out "mappedType" = JNum 5
       /\ getField out "constraintType" = JNum 6
       /\ lacksField out "reverseMappedSourceType"
       /\ lacksField out "reverseMappedMappedType"
       /\ lacksField out "reverseMappedConstraintType".
Proof.
  do 5 (split; [evaluate|]).
  exact (reverse_mapped_fields_are_renamed noCoercion reverseMapped
           ltac:(evaluate) ltac:(evaluate) ltac:(evaluate) ltac:(evaluate) ltac:(evaluate)).
Defined.

Lemma generic_type_or_instantiation_witness :
  noneOf (structuralMarkers ++ ["aliasTypeArguments"]) selfGeneric = true
  /\ truthy (getField selfGeneric "instantiatedType") = true
  /\ truthy (optMember (getField selfGeneric "typeArguments") "length") = true
  /\ exists out,
       simplifyType noCoercion selfGeneric = Ok out
       /\ processType noCoercion selfGeneric = Ok [out]
       /\ hasField out "kind" (JStr "GenericType")
       /\ lacksField out "instantiatedType".
Proof.
  do 3 (split; [evaluate|]).
  destruct (generic_type_or_instantiation noCoercion selfGeneric
              ltac:(evaluate) ltac:(evaluate) ltac:(evaluate))
    as [out [H1 [H2 [H3 [H4 _]]]]].
  exists out. split; [exact H1|]. split; [exact H2|].
  split; [exact (H3 ltac:(evaluate)) | exact (H4 ltac:(evaluate))].
Defined.


Lemma display_survives_only_in_some_kinds_witness :
  lookup unflagged "kind" = None
  /\ exists out,
       simplifyType noCoercion unflagged = Ok out
       /\ hasField out "display" (JStr "unknown")
       /\ exists kind, hasField out "kind" (JStr kind) /\ In kind displayKinds.
Proof.
  split; [evaluate|]. eexists. split; [evaluate|].
  match goal with
  | |- hasField ?o _ _ /\ _ =>
      assert (simplifyType noCoercion unflagged = Ok o) as Hout by evaluate;
      assert (hasField o "display" (JStr "unknown")) as Hhas by has_field;
      split; [exact Hhas|];
      exact (proj2 (proj1 (display_survives_only_in_some_kinds noCoercion unflagged
                             (JStr "unknown") ltac:(evaluate))
                          o Hout Hhas))
  end.
Defined.

Lemma known_symbol_name_is_its_label_witness :
  reachesNameRules iteratorSymbol = true
  /\ getField iteratorSymbol "symbolName" = JStr "__@iterator@34"
  /\ startsWithStr "__@iterator@34" "__@" = true
  /\ exists out,
       simplifyType noCoercion iteratorSymbol = Ok out
       /\ hasField out "kind" (JStr "KnownSymbol")
       /\ hasField out "name" (JStr "iterator").
Proof.
  do 3 (split; [evaluate|]).
  destruct (known_symbol_name_is_its_label noCoercion iteratorSymbol "__@iterator@34"
              ltac:(evaluate) ltac:(evaluate) ltac:(evaluate))
    as [out [H1 [H2 [H3 _]]]].
  exists out. split; [exact H1|]. split; [exact (H2 ltac:(evaluate))|].
  exact (H3 "iterator"%string "34"%string ltac:(evaluate) ltac:(evaluate) ltac:(evaluate)).
Defined.

Lemma jsx_attributes_lose_their_name_witness :
  reachesNameRules jsxAttributes = true
  /\ getField jsxAttributes "symbolName" = JStr "__jsxAttributes"
  /\ exists out,
       simplifyType noCoercion jsxAttributes = Ok out
       /\ hasField out "kind" (JStr "JsxAttributesType")
       /\ lacksField out "name".
Proof.
  do 2 (split; [evaluate|]).
  destruct (jsx_attributes_lose_their_name noCoercion jsxAttributes
              ltac:(evaluate) ltac:(evaluate))
    as [out [H1 [H2 [H3 _]]]].
  exists out. split; [exact H1|]. split; [exact (H2 ltac:(evaluate)) | exact H3].
Defined.


Lemma location_of_any_record_witness :
  exists out,
    processType noCoercion destructured = Ok [out]
    /\ getField out "location"
       = JObj [ ("path", JStr "a.ts"); ("line", JNum 1); ("char", JNum 2) ].
Proof.
  eexists. split; [evaluate|].
  match goal with
  | |- getField ?o _ = _ =>
      assert (processType noCoercion destructured = Ok [o]) as Hout by evaluate;
      rewrite (location_of_any_record noCoercion destructured o (or_intror Hout))
  end.
  evaluate.
Defined.

Lemma bare_bracket_chunk_ends_the_output_witness :
  parseOnlyEmptyObject "" = inr "Unexpected end of JSON input"%string
  /\ In "]"%string [ "["; "]"; "[]"; "" ]%string
  /\ pushedValues (snd (runLines parseOnlyEmptyObject false ["{}"; "]"; "{}"]%string))
     = [JObj []].
Proof.
  assert (In "]"%string [ "["; "]"; "[]"; "" ]%string) as Hin by (simpl; tauto).
  split; [evaluate|]. split; [exact Hin|].
  exact (proj1 (bare_bracket_chunk_ends_the_output parseOnlyEmptyObject
                  ["{}"%string] ["{}"%string] "]" "Unexpected end of JSON input"
                  ltac:(evaluate) Hin)).
Defined.

Lemma line_mode_hands_on_the_parsed_prefix_witness :
  forallb (parses parseEmptyObjectOrNull) ["[{}"; "null"; "{}]"]%string = true
  /\ pushedValues (snd (runLines parseEmptyObjectOrNull false ["[{}"; "null"; "{}]"]%string))
     = [JObj []; JNull; JObj []]
  /\ forwardedValues (snd (runLines parseEmptyObjectOrNull false ["[{}"; "null"; "{}]"]%string))
     = [JObj []; JObj []]
  /\ List.length (parsedPrefix parseEmptyObjectOrNull ["[{}"; "null"; "{}]"]%string) = 3%nat
  /\ Forall (fun e => logged e = [])
            (snd (runLines parseEmptyObjectOrNull false ["[{}"; "null"; "{}]"]%string)).
Proof.
  split; [evaluate|].
  destruct (line_mode_hands_on_the_parsed_prefix parseEmptyObjectOrNull
              ["[{}"; "null"; "{}]"]%string) as [Hhanded [Hforwarded [_ H]]].
  split; [rewrite Hhanded; evaluate|].
  split; [rewrite Hforwarded; evaluate|].
  exact (H ltac:(evaluate)).
Defined.
